(** * Legal-tech competitor research pipeline: discovery and enrichment

    A shallow embedding of [Webscrapping/part1_company_discovery.py]
    (deduplication and classification of discovered candidates) and of
    [Webscrapping/part2_company_research.py] (evidence gathering, the
    language-model step and its rule-based fallback, profile assembly).

    Conventions of the embedding.
    - A Python [str] is a [string] whose characters are the code points
      U+0000..U+00FF; [lower], [strip], the classes [\s], [\w] and [\d]
      follow CPython on that range.
    - A [dict] with a fixed set of keys is a record; a [dict] whose key
      set varies (a profile, the enrichment data) is a [gmap string _].
    - Network calls, the HTML parser, the clock and the regular-expression
      engine are inputs of the functions that use them: what the call
      returned, or that it raised. *)

From Stdlib Require Import Ascii String ZArith Lia List Permutation.
From stdpp Require Import base option list gmap strings pretty.

Local Open Scope Z_scope.

(** ** Python text primitives *)

Module Py.

Definition code (c : ascii) : N := N_of_ascii c.

Definition between (lo hi : N) (c : ascii) : bool :=
  ((lo <=? code c) && (code c <=? hi))%N.

(** [str.isspace], which is also the class [\s] of [re] on [str]. *)
Definition is_space (c : ascii) : bool :=
  between 9 13 c || between 28 32 c || (code c =? 133)%N || (code c =? 160)%N.

Definition is_digit (c : ascii) : bool := between 48 57 c.

(** The characters [str.lower] changes: A-Z and the accented capitals
    U+00C0..U+00DE, the multiplication sign U+00D7 excepted. *)
Definition is_upper (c : ascii) : bool :=
  between 65 90 c || (between 192 222 c && negb (code c =? 215)%N).

Definition lower_char (c : ascii) : ascii :=
  if is_upper c then ascii_of_N (code c + 32) else c.

(** The class [\w] of [re] on [str]: alphanumeric or underscore. *)
Definition is_word (c : ascii) : bool :=
  is_digit c || between 65 90 c || between 97 122 c || (code c =? 95)%N
  || (code c =? 170)%N || (code c =? 178)%N || (code c =? 179)%N
  || (code c =? 181)%N || (code c =? 185)%N || (code c =? 186)%N
  || between 188 190 c
  || (between 192 255 c && negb (code c =? 215)%N && negb (code c =? 247)%N).

Fixpoint str_map (f : ascii → ascii) (s : string) : string :=
  match s with
  | EmptyString => EmptyString
  | String c r => String (f c) (str_map f r)
  end.

Fixpoint str_filter (p : ascii → bool) (s : string) : string :=
  match s with
  | EmptyString => EmptyString
  | String c r => if p c then String c (str_filter p r) else str_filter p r
  end.

Fixpoint str_all (p : ascii → bool) (s : string) : bool :=
  match s with
  | EmptyString => true
  | String c r => p c && str_all p r
  end.

(** [s.lower()] *)
Definition lower (s : string) : string := str_map lower_char s.

Fixpoint lstrip (s : string) : string :=
  match s with
  | EmptyString => EmptyString
  | String c r => if is_space c then lstrip r else s
  end.

Fixpoint rstrip (s : string) : string :=
  match s with
  | EmptyString => EmptyString
  | String c r =>
      match rstrip r with
      | EmptyString => if is_space c then EmptyString else String c EmptyString
      | r' => String c r'
      end
  end.

(** [s.strip()] *)
Definition strip (s : string) : string := rstrip (lstrip s).

Definition starts_with_space (s : string) : bool :=
  match s with
  | EmptyString => false
  | String c _ => is_space c
  end.

Fixpoint ends_with_space (s : string) : bool :=
  match s with
  | EmptyString => false
  | String c EmptyString => is_space c
  | String _ r => ends_with_space r
  end.

(** [re.sub(r'\s+', ' ', s)]: every maximal run of whitespace becomes
    one blank. *)
Fixpoint collapse_whitespace (s : string) : string :=
  match s with
  | EmptyString => EmptyString
  | String c r =>
      if is_space c then
        if starts_with_space r then collapse_whitespace r
        else String " " (collapse_whitespace r)
      else String c (collapse_whitespace r)
  end.

(** A character the class [[^\w\s]] does not match. *)
Definition is_plain (c : ascii) : bool := is_word c || is_space c.

(** [re.sub(r'[^\w\s]', '', s)] *)
Definition remove_special (s : string) : string := str_filter is_plain s.

(** A character [str.lower] leaves as it is. *)
Definition is_lowered (c : ascii) : bool := Ascii.eqb (lower_char c) c.

(** [t in s] on strings *)
Fixpoint isin (t s : string) : bool :=
  String.prefix t s ||
  match s with
  | EmptyString => false
  | String _ r => isin t r
  end.

(** [any(term in text for term in terms)] *)
Definition any_in (terms : list string) (text : string) : bool :=
  existsb (λ term, isin term text) terms.

(** [s[:n]] for [n >= 0] *)
Fixpoint take (n : nat) (s : string) : string :=
  match n, s with
  | S n', String c r => String c (take n' r)
  | _, _ => EmptyString
  end.

(** [sep.join(parts)] *)
Fixpoint join (sep : string) (parts : list string) : string :=
  match parts with
  | [] => EmptyString
  | [p] => p
  | p :: rest => p +:+ sep +:+ join sep rest
  end.

(** Truth value of a string: non-empty. *)
Definition truthy (s : string) : bool :=
  match s with
  | EmptyString => false
  | String _ _ => true
  end.

End Py.

(** ** Part 1: candidates, deduplication, classification *)

(** Value found under an optional key of a dict: the key is absent, bound
    to [None], or bound to a value. *)
Inductive field (A : Type) : Type :=
| Missing
| PyNone
| Val (a : A).
Arguments Missing {A}.
Arguments PyNone {A}.
Arguments Val {A} a.

(** A discovered candidate, with the keys [deduplicate_companies] and
    [classify_companies] read or write.  The source-specific keys
    ([launch_date], [github_forks], [github_url], [jurisdiction], ...) are
    carried along untouched and are not part of the record. *)
Record company : Type := mkCompany {
  name : string;
  source : option string;
  category : string;
  confidence : string;
  description : field string;
  github_stars : option Z;
  votes : option Z;
  relevance : option string
}.

(** The key computed at the top of the loop body of
    [deduplicate_companies]. *)
Definition normalize (company_name : string) : string :=
  let name := Py.strip (Py.lower company_name) in
  let name := Py.collapse_whitespace name in
  Py.remove_special name.

(** The deduplication key of a candidate. *)
Definition dedup_key (c : company) : string := normalize (name c).

(** The loop of [deduplicate_companies], threading [seen_names] and
    [unique_companies]. *)
Fixpoint dedup_loop (seen_names : gset string) (unique_companies : list company)
    (companies_found : list company) : list company :=
  match companies_found with
  | [] => unique_companies
  | company :: rest =>
      let name := normalize (name company) in
      if bool_decide (name ∉ seen_names) && (2 <? String.length name)%nat then
        dedup_loop ({[name]} ∪ seen_names) (unique_companies ++ [company]) rest
      else dedup_loop seen_names unique_companies rest
  end.

Definition deduplicate_companies (companies_found : list company) : list company :=
  dedup_loop ∅ [] companies_found.

(** What the specification says of deduplication, with the length guard of
    the code made explicit: a candidate is kept when its key is longer
    than two characters and no candidate before it in the input has the
    same key. *)
Fixpoint first_occurrences (earlier : list string) (cs : list company) : list company :=
  match cs with
  | [] => []
  | c :: rest =>
      let k := normalize (name c) in
      (if bool_decide (k ∉ earlier) && (2 <? String.length k)%nat then [c] else [])
        ++ first_occurrences (k :: earlier) rest
  end.

(** The candidates of the deduplication example. *)
Definition known_company (company_name : string) : company :=
  {| name := company_name; source := Some "Startup Database";
     category := "legal_tech"; confidence := "high"; description := Missing;
     github_stars := None; votes := None; relevance := None |}.

(** The same without the guard, as the specification words it. *)
Fixpoint first_occurrences_unguarded (earlier : list string) (cs : list company)
    : list company :=
  match cs with
  | [] => []
  | c :: rest =>
      let k := normalize (name c) in
      (if bool_decide (k ∉ earlier) then [c] else [])
        ++ first_occurrences_unguarded (k :: earlier) rest
  end.

Definition direct_terms : list string :=
  ["chatbot"; "ai assistant"; "legal assistant"; "legal ai"].

Definition indirect_terms : list string :=
  ["legal tech"; "law tech"; "contract"; "litigation"; "compliance"].

(** [company.get('description', '').lower()]; [None] has no [lower]. *)
Definition description_lower (c : company) : option string :=
  match description c with
  | Missing => Some EmptyString
  | PyNone => None
  | Val d => Some (Py.lower d)
  end.

(** The relevance branch of [classify_companies]: the tier and the points
    it adds to [confidence_score]. *)
Definition classify_relevance (text : string) : string * Z :=
  if Py.any_in direct_terms text then ("direct", 3)
  else if Py.any_in indirect_terms text then ("indirect", 2)
  else ("peripheral", 1).

Definition confidence_level (confidence_score : Z) : string :=
  if 4 <=? confidence_score then "very_high"
  else if 3 <=? confidence_score then "high"
  else if 2 <=? confidence_score then "medium"
  else "low".

(** [confidence_score] at the end of the loop body, [None] when the body
    raises. *)
Definition confidence_score (c : company) : option Z :=
  descr ← description_lower c;
  let name_lower := Py.lower (name c) in
  let source := default EmptyString (source c) in
  let confidence_score := 0 in
  let confidence_score := confidence_score + (classify_relevance (name_lower +:+ descr)).2 in
  let confidence_score :=
    if Py.isin "API" source then confidence_score + 1 else confidence_score in
  let confidence_score :=
    if 100 <? default 0 (github_stars c) then confidence_score + 1 else confidence_score in
  let confidence_score :=
    if 50 <? default 0 (votes c) then confidence_score + 1 else confidence_score in
  Some confidence_score.

(** One iteration of the loop of [classify_companies]. *)
Definition classify_company (c : company) : option company :=
  descr ← description_lower c;
  score ← confidence_score c;
  let name_lower := Py.lower (name c) in
  Some {| name := name c; source := source c; category := category c;
          confidence := confidence_level score;
          description := description c;
          github_stars := github_stars c; votes := votes c;
          relevance := Some (classify_relevance (name_lower +:+ descr)).1 |}.

(** Points the specification gives a relevance tier. *)
Definition relevance_points (tier : string) : Z :=
  if decide (tier = "direct") then 3
  else if decide (tier = "indirect") then 2
  else if decide (tier = "peripheral") then 1
  else 0.

Definition bonus (b : bool) : Z := if b then 1 else 0.

(** A candidate of the confidence example: found through an API source,
    with 150 stars, and classified as a direct competitor. *)
Definition starred_api_candidate : company :=
  {| name := "LexBot"; source := Some "GitHub API";
     category := "legal_tech_github"; confidence := "medium";
     description := Val "Legal assistant for tenants";
     github_stars := Some 150; votes := None; relevance := None |}.

(** [classify_companies]: the first candidate whose iteration raises
    aborts the loop. *)
Definition classify_companies (companies_found : list company) : option (list company) :=
  mapM classify_company companies_found.

(** ** Part 2: evidence, enrichment, profiles *)

(** A JSON value as [json.loads] returns it; a number is kept as its
    literal, and the members of an object in the order of the text. *)
#[local] Unset Elimination Schemes.
Inductive json : Type :=
| JNull
| JBool (b : bool)
| JNum (literal : string)
| JStr (s : string)
| JArr (items : list json)
| JObj (members : list (string * json)).
#[local] Set Elimination Schemes.

(** What a call that may raise did. *)
Inductive outcome (A : Type) : Type :=
| Returned (a : A)
| Raised.
Arguments Returned {A} a.
Arguments Raised {A}.

(** An entry of [google_news_search]. *)
Module Article.
Record t : Type := mk {
  title : string;
  link : string;
  published : string;
  description : string;
  source : string
}.
End Article.

(** An entry of [hacker_news_search]. *)
Module Discussion.
Record t : Type := mk {
  title : string;
  url : string;
  points : Z;
  num_comments : Z;
  created_at : string;
  text : string;
  hn_url : string
}.
End Discussion.

(** The non-empty result of [opencorporates_search]; a field is [None]
    where the registry answers [null]. *)
Module Corporate.
Record t : Type := mk {
  registered_name : option string;
  jurisdiction : option string;
  incorporation_date : option string;
  company_type : option string;
  status : option string;
  registered_address : option string;
  opencorporates_url : option string
}.
End Corporate.

(** An entry of [public_repos] in the result of [github_search]. *)
Module Repo.
Record t : Type := mk {
  name : string;
  description : string;
  stars : Z;
  language : option string;
  updated : string;
  url : string
}.
End Repo.

(** The result of [github_search]. *)
Module GitHub.
Record t : Type := mk {
  repo_count : Z;
  total_stars : Z;
  languages : list string;
  recent_activity : list string;
  organization_url : string;
  public_repos : list Repo.t
}.
End GitHub.

(** The result of [duckduckgo_search] and of [google_scraping_fallback]. *)
Module WebHit.
Record t : Type := mk {
  website : string;
  search_results : string
}.
End WebHit.

(** [search_data], the evidence gathered for one company.  The empty
    dict under [github_activity] or [corporate_data] is [None]. *)
Module SearchData.
Record t : Type := mk {
  website : string;
  search_results : string;
  news_mentions : list Article.t;
  github_activity : option GitHub.t;
  corporate_data : option Corporate.t;
  tech_mentions : list Discussion.t
}.
End SearchData.

(** What each source adapter did when [web_search_agent] called it. *)
Record sources : Type := mkSources {
  duckduckgo_search : outcome WebHit.t;
  google_news_search : outcome (list Article.t);
  hacker_news_search : outcome (list Discussion.t);
  opencorporates_search : outcome (option Corporate.t);
  github_search : outcome GitHub.t;
  google_scraping_fallback : outcome WebHit.t
}.

(** [f"{article.get('title', '')} {article.get('description', '')}"] *)
Definition article_text (article : Article.t) : string :=
  Article.title article +:+ " " +:+ Article.description article.

(** [f"{repo.get('name', '')} {repo.get('description', '')}"] *)
Definition repo_text (repo : Repo.t) : string :=
  Repo.name repo +:+ " " +:+ Repo.description repo.

Definition discussion_text (discussion : Discussion.t) : string :=
  Discussion.title discussion +:+ " " +:+ Discussion.text discussion.

(** [web_search_agent]: every adapter is called in its own [try]; the
    scraping fallback runs when neither a website nor search text was
    found; the search text is then recompiled from the fragments. *)
Definition web_search_agent (src : sources) : SearchData.t :=
  let website := EmptyString in
  let search_results := EmptyString in
  let '(website, search_results) :=
    match duckduckgo_search src with
    | Returned ddg_results =>
        (WebHit.website ddg_results, WebHit.search_results ddg_results)
    | Raised => (website, search_results)
    end in
  let news_mentions :=
    match google_news_search src with
    | Returned news_data => news_data
    | Raised => []
    end in
  let tech_mentions :=
    match hacker_news_search src with
    | Returned hn_data => hn_data
    | Raised => []
    end in
  let corporate_data :=
    match opencorporates_search src with
    | Returned corp_data => corp_data
    | Raised => None
    end in
  let github_activity :=
    match github_search src with
    | Returned github_data => Some github_data
    | Raised => None
    end in
  let '(website, search_results) :=
    if negb (Py.truthy website) && negb (Py.truthy search_results) then
      match google_scraping_fallback src with
      | Returned fallback_data =>
          (WebHit.website fallback_data, WebHit.search_results fallback_data)
      | Raised => (website, search_results)
      end
    else (website, search_results) in
  let all_content := EmptyString in
  let all_content :=
    if Py.truthy search_results then all_content +:+ Py.take 1000 search_results
    else all_content in
  let all_content :=
    fold_left (λ acc article, acc +:+ Py.take 500 (" " +:+ article_text article))
      (firstn 3 news_mentions) all_content in
  let all_content :=
    fold_left (λ acc discussion, acc +:+ Py.take 300 (" " +:+ discussion_text discussion))
      (firstn 2 tech_mentions) all_content in
  SearchData.mk website all_content news_mentions github_activity corporate_data
    tech_mentions.

(** The regular expressions of part 2, by the place that uses them.
    The first five are the [pricing_patterns]: a currency sign followed
    by digits, or digits followed by a period.  The next three are the
    [partnership_patterns], matched ignoring case; each captures the
    word that follows the phrase.  The last three are the
    [user_patterns]; each captures the number (digits, for the first two
    with optional comma-separated groups of three) that precedes the
    word. *)
Inductive regex : Type :=
| EuroAmount
| DollarAmount
| PoundAmount
| PerMonth
| PerYear
| PartnershipWith
| IntegratesWith
| PartnersInclude
| UsersCount
| CustomersCount
| GrowthPercent.

(** What the HTML parser makes of a fetched page: its text, and the
    [content] of the description [meta] tag when there is one. *)
Record page : Type := mkPage {
  get_text : string;
  meta_description : option string
}.

(** One attempt of [call_groq_llm]. *)
Inductive attempt : Type :=
| Answered (content : option json)
    (* status 200; the value [json.loads] gives for the message content,
       [None] when it does not parse *)
| Status (status_code : Z)
    (* another status; [Status 200] is a 200 answer whose body has no
       message content, which raises *)
| ConnectionError
| Timeout
| OtherError.

(** The loop of [call_groq_llm]: [remaining] attempts are left out of
    [retries]. *)
Fixpoint groq_attempts (reply : nat → attempt) (retries remaining : nat) : option json :=
  match remaining with
  | O => None
  | S remaining' =>
      let attempt := (retries - remaining)%nat in
      let again := groq_attempts reply retries remaining' in
      let retry_or_give_up := if (attempt <? retries - 1)%nat then again else None in
      match reply attempt with
      | Answered (Some content) => Some content
      | Answered None => retry_or_give_up
      | Status status_code =>
          if status_code =? 200 then retry_or_give_up
          else if status_code =? 429 then again
          else if status_code =? 401 then None
          else if 500 <=? status_code then again
          else None
      | ConnectionError => retry_or_give_up
      | Timeout => retry_or_give_up
      | OtherError => retry_or_give_up
      end
  end.

(** [call_groq_llm(prompt)] with the default [retries=3]; the result is
    the content that passed [json.loads], as the value it parses to. *)
Definition call_groq_llm (reply : nat → attempt) : option json :=
  groq_attempts reply 3 3.

(** [int(s)] for a string: blanks around, a sign, decimal digits with
    single underscores between them. *)
Definition is_int_space (c : ascii) : bool :=
  Py.between 9 13 c || (Py.code c =? 32)%N || (Py.code c =? 133)%N
  || (Py.code c =? 160)%N.

Fixpoint int_lstrip (s : string) : string :=
  match s with
  | EmptyString => EmptyString
  | String c r => if is_int_space c then int_lstrip r else s
  end.

Fixpoint int_rstrip (s : string) : string :=
  match s with
  | EmptyString => EmptyString
  | String c r =>
      match int_rstrip r with
      | EmptyString => if is_int_space c then EmptyString else String c EmptyString
      | r' => String c r'
      end
  end.

Fixpoint int_digits (acc : Z) (after_digit : bool) (s : string) : option Z :=
  match s with
  | EmptyString => if after_digit then Some acc else None
  | String c r =>
      if Py.is_digit c then
        int_digits (10 * acc + Z.of_N (Py.code c - 48)) true r
      else if Ascii.eqb c "_" then
        if after_digit then int_digits acc false r else None
      else None
  end.

Definition py_int (s : string) : option Z :=
  match int_rstrip (int_lstrip s) with
  | String "+" r => int_digits 0 false r
  | String "-" r => Z.opp <$> int_digits 0 false r
  | r => int_digits 0 false r
  end.

(** [corp_data.get(key)] when it is truthy. *)
Definition truthy_field (corp_data : option Corporate.t)
    (key : Corporate.t → option string) : option string :=
  match corp_data with
  | Some corp =>
      match key corp with
      | Some value => if Py.truthy value then Some value else None
      | None => None
      end
  | None => None
  end.

(** [github_data.get('public_repos', [])] *)
Definition public_repos_of (github_data : option GitHub.t) : list Repo.t :=
  match github_data with
  | Some github => GitHub.public_repos github
  | None => []
  end.

(** [github_data.get('repo_count', 0)] *)
Definition repo_count_of (github_data : option GitHub.t) : Z :=
  match github_data with
  | Some github => GitHub.repo_count github
  | None => 0
  end.

(** [github_data.get('total_stars', 0)] *)
Definition total_stars_of (github_data : option GitHub.t) : Z :=
  match github_data with
  | Some github => GitHub.total_stars github
  | None => 0
  end.

Definition name_ai_terms : list string := ["ai"; "chatbot"; "assistant"; "gpt"; "bot"].
Definition search_ai_terms : list string :=
  ["artificial intelligence"; "machine learning"; "nlp"; "chatbot"].
Definition news_ai_terms : list string := ["ai"; "artificial intelligence"; "chatbot"].
Definition repo_ai_terms : list string := ["ai"; "ml"; "nlp"; "chatbot"; "assistant"].

(** [ai_indicators] of [enhanced_fallback_analysis], after the four
    checks. *)
Definition ai_indicators (company_name : string) (search_data : SearchData.t) : Z :=
  let company_lower := Py.lower company_name in
  let search_text := Py.lower (SearchData.search_results search_data) in
  let ai_indicators := 0 in
  let ai_indicators :=
    if Py.any_in name_ai_terms company_lower then ai_indicators + 2 else ai_indicators in
  let ai_indicators :=
    if Py.any_in search_ai_terms search_text then ai_indicators + 1 else ai_indicators in
  let ai_indicators :=
    if existsb (λ article, Py.any_in news_ai_terms (Py.lower (article_text article)))
         (SearchData.news_mentions search_data)
    then ai_indicators + 1 else ai_indicators in
  let ai_indicators :=
    if existsb (λ repo, Py.any_in repo_ai_terms (Py.lower (repo_text repo)))
         (public_repos_of (SearchData.github_activity search_data))
    then ai_indicators + 1 else ai_indicators in
  ai_indicators.

Definition ai_capability (ai_indicators : Z) : string :=
  if 3 <=? ai_indicators then "Yes - multiple AI indicators found"
  else if 1 <=? ai_indicators then "Possible - some AI indicators found"
  else "No - no clear AI indicators".

Definition funding_terms : list string :=
  ["funding"; "investment"; "series"; "raised"; "venture"].

(** The test that selects the article the stage is read from. *)
Definition is_funding_article (article : Article.t) : bool :=
  Py.any_in funding_terms (Py.lower (article_text article)).

(** The stage read from the first funding article: the value left in
    [fallback_data['stage']] when the loop breaks. *)
Definition stage_of_article (article : Article.t) : string :=
  let article_text := Py.lower (article_text article) in
  if Py.isin "series c" article_text || Py.isin "series d" article_text then "Established"
  else if Py.isin "series a" article_text || Py.isin "series b" article_text then "Growth"
  else if Py.isin "seed" article_text then "Startup"
  else "Unknown".

(** The stage estimated from the incorporation date; [None] when the
    conversion raises and the [except] clause passes. *)
Definition stage_of_incorporation (incorporation_date : string) : option string :=
  inc_year ← py_int (Py.take 4 incorporation_date);
  let current_year := 2025 in
  let years_active := current_year - inc_year in
  Some (if 8 <=? years_active then "Established"
        else if 4 <=? years_active then "Growth"
        else "Startup").

(** [fallback_data['stage']] at the end of [enhanced_fallback_analysis]. *)
Definition fallback_stage (search_data : SearchData.t) : string :=
  let corp_data := SearchData.corporate_data search_data in
  let recent_news := SearchData.news_mentions search_data in
  match find is_funding_article recent_news with
  | Some article => stage_of_article article
  | None =>
      match truthy_field corp_data Corporate.incorporation_date with
      | Some incorporation_date =>
          default "Unknown" (stage_of_incorporation incorporation_date)
      | None => "Unknown"
      end
  end.

(** The region appended for the registry jurisdiction. *)
Definition jurisdiction_indicators (corp_data : option Corporate.t) : list string :=
  match truthy_field corp_data Corporate.jurisdiction with
  | Some jurisdiction =>
      let jurisdiction := Py.lower jurisdiction in
      if Py.isin "de" jurisdiction || Py.isin "german" jurisdiction then ["Germany"]
      else if Py.any_in ["gb"; "fr"; "es"; "it"; "nl"] jurisdiction then ["Europe"]
      else if Py.isin "us" jurisdiction then ["Global/US"]
      else []
  | None => []
  end.

(** [all_text]: the lowered search text, then the titles and
    descriptions of the news as they are. *)
Definition all_text (search_data : SearchData.t) : string :=
  let search_text := Py.lower (SearchData.search_results search_data) in
  search_text +:+ " " +:+
  Py.join " " (map (λ a, Article.title a +:+ " " +:+ Article.description a)
                 (SearchData.news_mentions search_data)).

(** The region appended for the geographic mentions of the text. *)
Definition text_indicators (all_text : string) : list string :=
  if Py.any_in ["german"; "germany"; "deutsch"] all_text then ["Germany"]
  else if Py.any_in ["europe"; "european"; "eu"] all_text then ["Europe"]
  else if Py.any_in ["global"; "worldwide"; "international"] all_text then ["Global"]
  else [].

Definition coverage_indicators (search_data : SearchData.t) : list string :=
  jurisdiction_indicators (SearchData.corporate_data search_data)
  ++ text_indicators (all_text search_data).

(** The elements of a list without repetition, first occurrences kept. *)
Fixpoint distinct (seen : list string) (l : list string) : list string :=
  match l with
  | [] => []
  | x :: r => if bool_decide (x ∈ seen) then distinct seen r else x :: distinct (x :: seen) r
  end.

(** [str(n)] for an integer. *)
Definition py_str_int (n : Z) : string := pretty n.

(** [fallback_data['comment']] at the end of
    [enhanced_fallback_analysis]. *)
Definition fallback_comment (company_name : string) (search_data : SearchData.t) : string :=
  let recent_news := SearchData.news_mentions search_data in
  let github_data := SearchData.github_activity search_data in
  let corp_data := SearchData.corporate_data search_data in
  let tech_discussions := SearchData.tech_mentions search_data in
  let comment := "Enhanced analysis using FREE APIs for " +:+ company_name in
  let comment_parts := [] in
  let comment_parts :=
    match recent_news with
    | [] => comment_parts
    | _ => comment_parts ++
           ["Recent news: " +:+ py_str_int (Z.of_nat (length recent_news))
              +:+ " articles found"]
    end in
  let comment_parts :=
    if 0 <? repo_count_of github_data then
      comment_parts ++
      ["GitHub: " +:+ py_str_int (repo_count_of github_data) +:+ " repositories, "
         +:+ py_str_int (total_stars_of github_data) +:+ " stars"]
    else comment_parts in
  let comment_parts :=
    match corp_data with
    | Some corp =>
        comment_parts ++
        ["Registered in " +:+ default "None" (Corporate.jurisdiction corp)]
    | None => comment_parts
    end in
  let comment_parts :=
    match tech_discussions with
    | [] => comment_parts
    | _ =>
        let total_points := foldr (λ d acc, Discussion.points d + acc) 0 tech_discussions in
        comment_parts ++
        ["HN discussions: " +:+ py_str_int (Z.of_nat (length tech_discussions))
           +:+ " posts, " +:+ py_str_int total_points +:+ " total points"]
    end in
  match comment_parts with
  | [] => comment
  | _ => comment +:+ ". Additional insights: " +:+ Py.join "; " comment_parts
  end.

(** The eighteen enrichment attributes of a profile, in the order of the
    initial [profile] of [research_single_company]. *)
Definition enrichment_keys : list string :=
  ["business_model"; "ai_powered_legal_chatbot"; "stage"; "fundraising_stage";
   "multilingual_support"; "mobile_web_accessibility"; "api_integration";
   "free_tier"; "subscription_based"; "pricing"; "target_audience";
   "user_base_growth_rate"; "partnerships_integrations"; "coverage"; "product";
   "founding_team_rating"; "direct_indirect"; "comment"].

(** The keys the language model is asked for, which are the keys of
    [fallback_data]. *)
Definition llm_keys : list string :=
  ["ai_powered_legal_chatbot"; "stage"; "multilingual_support";
   "mobile_web_accessibility"; "free_tier"; "subscription_based";
   "target_audience"; "coverage"; "founding_team_rating"; "direct_indirect";
   "comment"].

(** [d.update(other)] for two dicts: the bindings of [other] win. *)
Definition dict_update {V : Type} (d other : gmap string V) : gmap string V := other ∪ d.

(** The dict of a JSON object: a later member overrides an earlier one
    with the same key. *)
Definition dict_of_members (members : list (string * json)) : gmap string json :=
  fold_left (λ d member, <[member.1 := member.2]> d) members ∅.

(** The keys of that dict in iteration order. *)
Definition keys_of_members (members : list (string * json)) : list string :=
  distinct [] (map fst members).

(** One element of an iterable given to [dict.update]: it must itself
    iterate over exactly two values, a hashable key and a value.  [Some
    (None, v)] is a binding whose key is not a string. *)
Definition binding_of_item (item : json) : option (option string * json) :=
  match item with
  | JArr [JStr key; value] => Some (Some key, value)
  | JArr [JNull; value] | JArr [JBool _; value] | JArr [JNum _; value] =>
      Some (None, value)
  | JStr (String a (String b EmptyString)) =>
      Some (Some (String a EmptyString), JStr (String b EmptyString))
  | JObj members =>
      match keys_of_members members with
      | [key; value] => Some (Some key, JStr value)
      | _ => None
      end
  | _ => None
  end.

(** [profile.update(llm_data)] where [llm_data] is any JSON value, [None]
    when it raises.  A profile is modelled by its string keys; a binding
    whose key is not a string cannot touch them. *)
Definition update_with_json (profile : gmap string json) (llm_data : json)
    : option (gmap string json) :=
  match llm_data with
  | JObj members => Some (dict_update profile (dict_of_members members))
  | JArr items =>
      bindings ← mapM binding_of_item items;
      Some (fold_left (λ d binding,
                         match binding.1 with
                         | Some key => <[key := binding.2]> d
                         | None => d
                         end) bindings profile)
  | JStr EmptyString => Some profile
  | JStr _ => None
  | JNull | JBool _ | JNum _ => None
  end.

(** What [llm_research_agent] returns: the parsed answer of the model,
    or the result of [enhanced_fallback_analysis]. *)
Inductive llm_data : Type :=
| FromModel (answer : json)
| FromFallback (fallback_data : gmap string string).

Section research.

(** [re.findall(pattern, text)] *)
Variable re_findall : regex → string → list string.

(** [list(s)] for a set [s] of strings, given the distinct elements: the
    order in which the set iterates. *)
Variable set_order : list string → list string.

(** [fallback_data['coverage']] at the end of
    [enhanced_fallback_analysis]. *)
Definition fallback_coverage (search_data : SearchData.t) : string :=
  match coverage_indicators search_data with
  | [] => "Unknown"
  | coverage_indicators => Py.join "/" (set_order (distinct [] coverage_indicators))
  end.

(** [enhanced_fallback_analysis(company_name, search_data)] *)
Definition enhanced_fallback_analysis (company_name : string)
    (search_data : SearchData.t) : gmap string string :=
  let fallback_data : gmap string string :=
    list_to_map
      [("ai_powered_legal_chatbot", "Unknown"); ("stage", "Unknown");
       ("multilingual_support", "Unknown"); ("mobile_web_accessibility", "Unknown");
       ("free_tier", "Unknown"); ("subscription_based", "Unknown");
       ("target_audience", "Unknown"); ("coverage", "Unknown");
       ("founding_team_rating", "3"); ("direct_indirect", "Unknown");
       ("comment", "Enhanced analysis using FREE APIs for " +:+ company_name)] in
  let fallback_data :=
    <["ai_powered_legal_chatbot" :=
        ai_capability (ai_indicators company_name search_data)]> fallback_data in
  let fallback_data := <["stage" := fallback_stage search_data]> fallback_data in
  let fallback_data := <["coverage" := fallback_coverage search_data]> fallback_data in
  let fallback_data :=
    <["comment" := fallback_comment company_name search_data]> fallback_data in
  fallback_data.

(** [llm_research_agent(company_name, search_data)].  The prompt is not
    modelled: [reply] is what the service answered to it, attempt by
    attempt. *)
Definition llm_research_agent (reply : nat → attempt) (company_name : string)
    (search_data : SearchData.t) : llm_data :=
  match call_groq_llm reply with
  | Some llm_response => FromModel llm_response
  | None => FromFallback (enhanced_fallback_analysis company_name search_data)
  end.

Definition pricing_patterns : list regex :=
  [EuroAmount; DollarAmount; PoundAmount; PerMonth; PerYear].

(** The first pattern with a match decides. *)
Fixpoint first_matches (patterns : list regex) (text : string) : option (list string) :=
  match patterns with
  | [] => None
  | pattern :: rest =>
      match re_findall pattern text with
      | [] => first_matches rest text
      | matches => Some matches
      end
  end.

(** [website_analysis_agent(website_url)]; [fetched] is the parsed page
    of a 200 answer, [None] for another status or an exception. *)
Definition website_analysis_agent (fetched : option page) (website_url : string)
    : gmap string string :=
  let website_data : gmap string string :=
    list_to_map
      [("website", website_url); ("business_model", "Unknown"); ("pricing", "Unknown");
       ("product", "Unknown"); ("api_integration", "Unknown")] in
  match fetched with
  | Some soup =>
      let page_text := Py.lower (get_text soup) in
      let website_data :=
        if Py.any_in ["saas"; "software as a service"; "subscription"] page_text
        then <["business_model" := "SaaS"]> website_data
        else if Py.any_in ["marketplace"; "platform"] page_text
        then <["business_model" := "Platform"]> website_data
        else if Py.any_in ["consulting"; "services"] page_text
        then <["business_model" := "Services"]> website_data
        else website_data in
      let website_data :=
        match first_matches pricing_patterns page_text with
        | Some matches => <["pricing" := Py.join ", " (firstn 3 matches)]> website_data
        | None => website_data
        end in
      let website_data :=
        if Py.any_in ["api"; "developer"; "integration"] page_text
        then <["api_integration" := "Yes"]> website_data
        else website_data in
      let website_data :=
        match meta_description soup with
        | Some content => <["product" := Py.take 200 content]> website_data
        | None => website_data
        end in
      website_data
  | None => website_data
  end.

(** The body of the query loop of [funding_research_agent]; [fetched] is
    the text of the result page, [None] for a failed query. *)
Definition funding_step (funding_data : string * string) (fetched : option string)
    : string * string :=
  match fetched with
  | Some text =>
      let text_content := Py.lower text in
      if Py.isin "series a" text_content then ("Series A", "Growth")
      else if Py.isin "series b" text_content then ("Series B", "Growth")
      else if Py.isin "series c" text_content then ("Series C", "Established")
      else if Py.isin "seed" text_content then ("Seed", "Startup")
      else if Py.isin "pre-seed" text_content then ("Pre-seed", "Startup")
      else funding_data
  | None => funding_data
  end.

(** [funding_research_agent(company_name)]; [google] gives the page a
    query returns. *)
Definition funding_research_agent (google : string → option string)
    (company_name : string) : gmap string string :=
  let funding_queries :=
    [company_name +:+ " funding series venture capital raised";
     company_name +:+ " investment round crunchbase";
     company_name +:+ " valuation startup funding"] in
  let funding_data :=
    fold_left (λ funding_data query, funding_step funding_data (google query))
      funding_queries ("Unknown", "Unknown") in
  list_to_map [("fundraising_stage", funding_data.1); ("stage", funding_data.2)].

Definition partnership_patterns : list regex :=
  [PartnershipWith; IntegratesWith; PartnersInclude].

Definition user_patterns : list regex := [UsersCount; CustomersCount; GrowthPercent].

(** The body of the query loop of [competition_analysis_agent]; the
    pair is ([partnerships_integrations], [user_base_growth_rate]). *)
Definition competition_step (competition_data : string * string)
    (fetched : option string) : string * string :=
  match fetched with
  | Some text_content =>
      let partnerships :=
        flat_map (λ pattern, firstn 3 (re_findall pattern text_content))
          partnership_patterns in
      let partnerships_integrations :=
        match partnerships with
        | [] => competition_data.1
        | _ => Py.join ", " partnerships
        end in
      let user_base_growth_rate :=
        match first_matches user_patterns text_content with
        | Some matches => Py.join ", " (firstn 2 matches)
        | None => competition_data.2
        end in
      (partnerships_integrations, user_base_growth_rate)
  | None => competition_data
  end.

(** [competition_analysis_agent(company_name, search_data)] *)
Definition competition_analysis_agent (google : string → option string)
    (company_name : string) : gmap string string :=
  let partnership_queries :=
    [company_name +:+ " partnerships integrations customers";
     company_name +:+ " users growth metrics statistics"] in
  let competition_data :=
    fold_left (λ competition_data query, competition_step competition_data (google query))
      partnership_queries ("Unknown", "Unknown") in
  list_to_map [("partnerships_integrations", competition_data.1);
               ("user_base_growth_rate", competition_data.2)].

(** Everything outside the program that one profile build observes. *)
Record environment : Type := mkEnvironment {
  now : string;
  adapters : sources;
  fetch : string → option page;
  reply : nat → attempt;
  google : string → option string
}.

Definition as_json (d : gmap string string) : gmap string json := JStr <$> d.

(** The initial [profile] of [research_single_company]. *)
Definition initial_profile (company_name : string) (discovery_info : json)
    (research_timestamp : string) : gmap string json :=
  <["competitor" := JStr company_name]>
    (<["discovery_info" := discovery_info]>
       (<["research_timestamp" := JStr research_timestamp]>
          (<["website" := JStr EmptyString]>
             (list_to_map (map (λ key, (key, JStr EmptyString)) enrichment_keys))))).

(** [research_single_company(company)], for a company dict
    [discovery_info] whose name is [company_name]; [None] when the build
    raises. *)
Definition research_single_company (env : environment) (company_name : string)
    (discovery_info : json) : option (gmap string json) :=
  let profile := initial_profile company_name discovery_info (now env) in
  let search_data := web_search_agent (adapters env) in
  let profile :=
    if Py.truthy (SearchData.website search_data) then
      let website_data :=
        website_analysis_agent (fetch env (SearchData.website search_data))
          (SearchData.website search_data) in
      dict_update profile (as_json website_data)
    else profile in
  profile ←
    match llm_research_agent (reply env) company_name search_data with
    | FromModel answer => update_with_json profile answer
    | FromFallback fallback_data => Some (dict_update profile (as_json fallback_data))
    end;
  let funding_data := funding_research_agent (google env) company_name in
  let profile := dict_update profile (as_json funding_data) in
  let competition_data := competition_analysis_agent (google env) company_name in
  let profile := dict_update profile (as_json competition_data) in
  Some profile.

End research.

(** ** Vocabulary of the properties *)

(** The text [s] with the word [w] put in somewhere. *)
Inductive inserted (w : string) : string → string → Prop :=
| inserted_at (a b : string) : inserted w (a +:+ b) (a +:+ w +:+ b).

(** A word that counts for a list of terms: one of them, in any case. *)
Definition qualifies (terms : list string) (w : string) : Prop :=
  Py.lower w ∈ terms.

Definition with_search_results (sd : SearchData.t) (s : string) : SearchData.t :=
  SearchData.mk (SearchData.website sd) s (SearchData.news_mentions sd)
    (SearchData.github_activity sd) (SearchData.corporate_data sd)
    (SearchData.tech_mentions sd).

Definition with_news (sd : SearchData.t) (news : list Article.t) : SearchData.t :=
  SearchData.mk (SearchData.website sd) (SearchData.search_results sd) news
    (SearchData.github_activity sd) (SearchData.corporate_data sd)
    (SearchData.tech_mentions sd).

Definition with_github (sd : SearchData.t) (github : GitHub.t) : SearchData.t :=
  SearchData.mk (SearchData.website sd) (SearchData.search_results sd)
    (SearchData.news_mentions sd) (Some github) (SearchData.corporate_data sd)
    (SearchData.tech_mentions sd).

Definition with_tech (sd : SearchData.t) (tech : list Discussion.t) : SearchData.t :=
  SearchData.mk (SearchData.website sd) (SearchData.search_results sd)
    (SearchData.news_mentions sd) (SearchData.github_activity sd)
    (SearchData.corporate_data sd) tech.

Definition with_repos (github : GitHub.t) (repos : list Repo.t) : GitHub.t :=
  GitHub.mk (GitHub.repo_count github) (GitHub.total_stars github)
    (GitHub.languages github) (GitHub.recent_activity github)
    (GitHub.organization_url github) repos.

(** An article differs from another by a word added to its title or to
    its description. *)
Inductive article_gains (w : string) : Article.t → Article.t → Prop :=
| gains_title a t :
    inserted w (Article.title a) t →
    article_gains w a
      (Article.mk t (Article.link a) (Article.published a) (Article.description a)
         (Article.source a))
| gains_description a d :
    inserted w (Article.description a) d →
    article_gains w a
      (Article.mk (Article.title a) (Article.link a) (Article.published a) d
         (Article.source a)).

Inductive repo_gains (w : string) : Repo.t → Repo.t → Prop :=
| gains_repo_name r n :
    inserted w (Repo.name r) n →
    repo_gains w r
      (Repo.mk n (Repo.description r) (Repo.stars r) (Repo.language r)
         (Repo.updated r) (Repo.url r))
| gains_repo_description r d :
    inserted w (Repo.description r) d →
    repo_gains w r
      (Repo.mk (Repo.name r) d (Repo.stars r) (Repo.language r)
         (Repo.updated r) (Repo.url r)).

Inductive discussion_gains (w : string) : Discussion.t → Discussion.t → Prop :=
| gains_discussion_title d t :
    inserted w (Discussion.title d) t →
    discussion_gains w d
      (Discussion.mk t (Discussion.url d) (Discussion.points d)
         (Discussion.num_comments d) (Discussion.created_at d) (Discussion.text d)
         (Discussion.hn_url d))
| gains_discussion_text d t :
    inserted w (Discussion.text d) t →
    discussion_gains w d
      (Discussion.mk (Discussion.title d) (Discussion.url d) (Discussion.points d)
         (Discussion.num_comments d) (Discussion.created_at d) t
         (Discussion.hn_url d)).

(** [adds_keyword (n, sd) (n', sd')]: the company name and evidence
    [(n', sd')] are [(n, sd)] with one qualifying keyword added to one
    text source: the name, the search text, a news item, a repository,
    or a discussion (which the score does not read). *)
Inductive adds_keyword : string * SearchData.t → string * SearchData.t → Prop :=
| add_to_name w n n' sd :
    qualifies name_ai_terms w → inserted w n n' →
    adds_keyword (n, sd) (n', sd)
| add_to_search w n sd s' :
    qualifies search_ai_terms w → inserted w (SearchData.search_results sd) s' →
    adds_keyword (n, sd) (n, with_search_results sd s')
| add_to_news w n sd i a a' :
    qualifies news_ai_terms w →
    SearchData.news_mentions sd !! i = Some a → article_gains w a a' →
    adds_keyword (n, sd) (n, with_news sd (<[i := a']> (SearchData.news_mentions sd)))
| add_to_repo w n sd github i r r' :
    qualifies repo_ai_terms w →
    SearchData.github_activity sd = Some github →
    GitHub.public_repos github !! i = Some r → repo_gains w r r' →
    adds_keyword (n, sd)
      (n, with_github sd (with_repos github (<[i := r']> (GitHub.public_repos github))))
| add_to_discussion w n sd i d d' :
    SearchData.tech_mentions sd !! i = Some d → discussion_gains w d d' →
    adds_keyword (n, sd) (n, with_tech sd (<[i := d']> (SearchData.tech_mentions sd))).

(** The four checks of the score. *)
Definition name_hit (company_name : string) : bool :=
  Py.any_in name_ai_terms (Py.lower company_name).

Definition search_hit (sd : SearchData.t) : bool :=
  Py.any_in search_ai_terms (Py.lower (SearchData.search_results sd)).

Definition news_hit (sd : SearchData.t) : bool :=
  existsb (λ article, Py.any_in news_ai_terms (Py.lower (article_text article)))
    (SearchData.news_mentions sd).

Definition repo_hit (sd : SearchData.t) : bool :=
  existsb (λ repo, Py.any_in repo_ai_terms (Py.lower (repo_text repo)))
    (public_repos_of (SearchData.github_activity sd)).

(** The order of the three answers of the capability check. *)
Definition capability_rank (answer : string) : nat :=
  if String.prefix "Yes" answer then 2
  else if String.prefix "Possible" answer then 1
  else 0.

(** The five source adapters of [web_search_agent]. *)
Inductive adapter : Type :=
| WebSearch
| NewsFeed
| TechDiscussion
| Registry
| CodeHosting.

(** The same run of the adapters, except that adapter [a] raises. *)
Definition fail (a : adapter) (src : sources) : sources :=
  match a with
  | WebSearch =>
      mkSources Raised (google_news_search src) (hacker_news_search src)
        (opencorporates_search src) (github_search src) (google_scraping_fallback src)
  | NewsFeed =>
      mkSources (duckduckgo_search src) Raised (hacker_news_search src)
        (opencorporates_search src) (github_search src) (google_scraping_fallback src)
  | TechDiscussion =>
      mkSources (duckduckgo_search src) (google_news_search src) Raised
        (opencorporates_search src) (github_search src) (google_scraping_fallback src)
  | Registry =>
      mkSources (duckduckgo_search src) (google_news_search src)
        (hacker_news_search src) Raised (github_search src)
        (google_scraping_fallback src)
  | CodeHosting =>
      mkSources (duckduckgo_search src) (google_news_search src)
        (hacker_news_search src) (opencorporates_search src) Raised
        (google_scraping_fallback src)
  end.



(** Attributes a profile gets from the fallback heuristic, the funding
    agent and the competition agent. *)
Definition fallback_path_keys : list string :=
  llm_keys ++ ["fundraising_stage"; "partnerships_integrations"; "user_base_growth_rate"].

(** Attributes only [website_analysis_agent] sets. *)
Definition website_keys : list string :=
  ["business_model"; "pricing"; "product"; "api_integration"].

(** Modelled on the words of the specification: the coverage is the
    region of the jurisdiction together with every region whose keywords
    occur in the text. *)
Definition coverage_as_specified (search_data : SearchData.t) : list string :=
  let text := all_text search_data in
  jurisdiction_indicators (SearchData.corporate_data search_data)
  ++ (if Py.any_in ["german"; "germany"; "deutsch"] text then ["Germany"] else [])
  ++ (if Py.any_in ["europe"; "european"; "eu"] text then ["Europe"] else [])
  ++ (if Py.any_in ["global"; "worldwide"; "international"] text then ["Global"] else []).

(** ** Example data *)

Definition no_sources : sources :=
  mkSources Raised Raised Raised Raised Raised Raised.

(** A run without network: every adapter and every query fails, and the
    language model answers as [reply] says. *)
Definition offline (reply : nat → attempt) : environment :=
  mkEnvironment "2025-06-01T12:00:00" no_sources (λ _, None) reply (λ _, None).

Definition no_evidence : SearchData.t := SearchData.mk "" "" [] None None [].

Definition series_b_article : Article.t :=
  Article.mk "Acme raised a Series B" "" "" "Legal startup Acme closes its round"
    "Google News".

Definition series_b_evidence : SearchData.t := with_news no_evidence [series_b_article].

Definition registered_2015 : Corporate.t :=
  Corporate.mk (Some "ACME LEGAL LTD") (Some "gb") (Some "2015") None (Some "Active")
    None None.

Definition registry_evidence : SearchData.t :=
  SearchData.mk "" "" [] None (Some registered_2015) [].

Definition two_regions_evidence : SearchData.t :=
  with_search_results no_evidence "Offices in Germany and across Europe".

(** Only the news feed answers, with the Series B article; the model
    times out. *)
Definition series_b_run : environment :=
  mkEnvironment "2025-06-01T12:00:00"
    (mkSources Raised (Returned [series_b_article]) Raised Raised Raised Raised)
    (λ _, None) (λ _, Timeout) (λ _, None).

(** An answer of the model that parses but has other keys than asked. *)
Definition off_contract_answer : json :=
  JObj [("verdict", JStr "competitor"); ("coverage", JNull)].

(** No regular expression matches, and a set iterates in insertion
    order. *)
Definition no_matches : regex → string → list string := λ _ _, [].
Definition insertion_order : list string → list string := λ l, l.

(** ** Further functions of the two parts *)

Definition invalid_terms : list string :=
  ["legal"; "law"; "the"; "and"; "with"; "for"; "are"; "this"; "that";
   "technology"; "tech"; "artificial"; "intelligence"; "machine"; "learning"].

(** [is_valid_legal_tech_company(company_name)] of part 1. *)
Definition is_valid_legal_tech_company (company_name : string) : bool :=
  if negb (Py.truthy company_name) || (String.length company_name <? 3)%nat then false
  else negb (bool_decide (Py.lower company_name ∈ invalid_terms)).

(** The number of candidates with a given relevance, as the summary of
    [save_companies_list] counts them. *)
Definition count_relevance (tier : string) (companies_found : list company) : nat :=
  length (filter (λ c, relevance c = Some tier) companies_found).

(** A character the class [[^a-zA-Z0-9]] does not match. *)
Definition is_ascii_alnum (c : ascii) : bool :=
  Py.between 97 122 c || Py.between 65 90 c || Py.is_digit c.

(** [re.sub(r'[^a-zA-Z0-9]', '', name.lower())] *)
Definition clean_name (name : string) : string :=
  Py.str_filter is_ascii_alnum (Py.lower name).

(** [is_company_match(search_name, found_name)] of part 2. *)
Definition is_company_match (search_name found_name : string) : bool :=
  let search_clean := clean_name search_name in
  let found_clean := clean_name found_name in
  Py.isin search_clean found_clean || Py.isin found_clean search_clean
  || (Z.abs (Z.of_nat (String.length search_clean)
             - Z.of_nat (String.length found_clean)) <=? 3).

(** An attempt after which [call_groq_llm] goes on to the next one, when
    there is a next one. *)
Definition retried (a : attempt) : bool :=
  match a with
  | Answered (Some _) => false
  | Answered None => true
  | Status status_code =>
      (status_code =? 200) || (status_code =? 429) || (500 <=? status_code)
  | ConnectionError | Timeout | OtherError => true
  end.

(** One attempt followed by what the later attempts give. *)
Definition attempt_then (a : attempt) (later : option json) : option json :=
  match a with
  | Answered (Some content) => Some content
  | _ => if retried a then later else None
  end.

(** The twenty-two keys of the initial [profile]. *)
Definition profile_keys : list string :=
  ["competitor"; "discovery_info"; "research_timestamp"; "website"] ++ enrichment_keys.

(** The values [funding_research_agent] can give [stage]. *)
Definition funding_stages : list string := ["Unknown"; "Growth"; "Established"; "Startup"].

(** The values it can give [fundraising_stage]. *)
Definition fundraising_stages : list string :=
  ["Unknown"; "Series A"; "Series B"; "Series C"; "Seed"].

Section assembly.

Variable re_findall : regex → string → list string.

(** The profile of [research_single_company] after the website agent,
    before the language-model step. *)
Definition profile_after_website (env : environment) (company_name : string)
    (discovery_info : json) : gmap string json :=
  let profile := initial_profile company_name discovery_info (now env) in
  let search_data := web_search_agent (adapters env) in
  if Py.truthy (SearchData.website search_data) then
    dict_update profile
      (as_json (website_analysis_agent re_findall
                  (fetch env (SearchData.website search_data))
                  (SearchData.website search_data)))
  else profile.

(** What the funding and the competition agent write over it at the
    end. *)
Definition agents_update (env : environment) (company_name : string)
    (profile : gmap string json) : gmap string json :=
  dict_update
    (dict_update profile (as_json (funding_research_agent (google env) company_name)))
    (as_json (competition_analysis_agent re_findall (google env) company_name)).

End assembly.

(** Every value of a dict of strings is a non-empty string. *)
Definition all_nonempty (d : gmap string string) : Prop :=
  map_Forall (λ _ v, v ≠ EmptyString) d.

(** The attributes the fallback heuristic never detects. *)
Definition undetected_keys : list string :=
  ["multilingual_support"; "mobile_web_accessibility"; "free_tier";
   "subscription_based"; "target_audience"; "direct_indirect"].

(** Keys the funding and the competition agent write. *)
Definition agent_keys : list string :=
  ["fundraising_stage"; "stage"; "partnerships_integrations"; "user_base_growth_rate"].

Section batch.

Variable re_findall : regex → string → list string.
Variable set_order : list string → list string.

(** The loop of [research_all_companies] over the companies of part 1,
    each a name with its discovery record; [env_of i] is what the build
    of company [i] observes.  A build that raises is skipped. *)
Fixpoint research_loop (env_of : nat → environment) (i : nat)
    (companies : list (string * json)) (research_results : list (gmap string json))
    : list (gmap string json) :=
  match companies with
  | [] => research_results
  | company :: rest =>
      match research_single_company re_findall set_order (env_of i) company.1 company.2 with
      | Some company_profile =>
          research_loop env_of (S i) rest (research_results ++ [company_profile])
      | None => research_loop env_of (S i) rest research_results
      end
  end.

(** [research_all_companies()]; [loaded] is the list in the companies
    file, [None] when the file is missing or unreadable.  The result is
    [None] when the method returns without researching. *)
Definition research_all_companies (env_of : nat → environment)
    (loaded : option (list (string * json))) : option (list (gmap string json)) :=
  let companies := default [] loaded in
  match companies with
  | [] => None
  | _ => Some (research_loop env_of 0 companies [])
  end.

End batch.

(** ** The source filters of part 1 *)

(** An item of the repository search, with the keys part 1 reads. *)
Module Repository.
Record t : Type := mk {
  name : string;
  description : field string;
  stargazers_count : Z
}.
End Repository.

Definition legal_keywords : list string :=
  ["legal"; "law"; "lawyer"; "attorney"; "contract"; "litigation";
   "compliance"; "paralegal"; "court"; "jurisdiction"; "statute";
   "regulation"; "legal-tech"; "lawtech"; "legal-ai"].

(** [repo.get('description', '')] as an f-string prints it. *)
Definition format_description (value : field string) : string :=
  match value with
  | Missing => EmptyString
  | PyNone => "None"
  | Val text => text
  end.

(** [is_legal_tech_repo(repo)] of part 1. *)
Definition is_legal_tech_repo (repo : Repository.t) : bool :=
  let repo_text :=
    Py.lower (Repository.name repo +:+ " "
              +:+ format_description (Repository.description repo)) in
  Py.any_in legal_keywords repo_text && (5 <? Repository.stargazers_count repo).

(** [is_legal_tech_company_opencorp(company)] of part 1, for the name
    [company.get('name', '')] of the registry record. *)
Definition is_legal_tech_company_opencorp (name : string) : bool :=
  let company_name := Py.lower name in
  let has_legal :=
    Py.any_in ["legal"; "law"; "lawyer"; "attorney"; "contract"] company_name in
  let has_tech :=
    Py.any_in ["ai"; "technology"; "tech"; "software"; "digital"; "automation"]
      company_name in
  has_legal && has_tech && (5 <? String.length company_name)%nat.

(** * Properties *)

(** ** Characters and text *)

Section text_facts.

Import Py.

Lemma lower_char_space c : is_space (lower_char c) = is_space c.
Proof. destruct c as [[] [] [] [] [] [] [] []]; reflexivity. Qed.

Lemma lower_char_word c : is_word (lower_char c) = is_word c.
Proof. destruct c as [[] [] [] [] [] [] [] []]; reflexivity. Qed.

Lemma lower_char_idem c : lower_char (lower_char c) = lower_char c.
Proof. destruct c as [[] [] [] [] [] [] [] []]; reflexivity. Qed.

Lemma lower_app a b : lower (a +:+ b) = lower a +:+ lower b.
Proof. unfold lower. induction a as [|c a IH]; simpl; [done|]. by rewrite IH. Qed.

Lemma lower_idem s : lower (lower s) = lower s.
Proof.
  unfold lower. induction s as [|c s IH]; simpl; [done|].
  by rewrite lower_char_idem, IH.
Qed.

Lemma str_filter_all p s : str_all p s = true → str_filter p s = s.
Proof.
  induction s as [|c s IH]; simpl; [done|].
  intros [Hc Hs]%andb_true_iff. rewrite Hc. by rewrite IH.
Qed.

Lemma str_all_filter p s : str_all p (str_filter p s) = true.
Proof.
  induction s as [|c s IH]; simpl; [done|].
  destruct (p c) eqn:Hc; simpl; [by rewrite Hc|done].
Qed.

Lemma str_all_map p f s :
  (∀ c, p (f c) = p c) → str_all p (str_map f s) = str_all p s.
Proof. intros Hf. induction s as [|c s IH]; simpl; [done|]. by rewrite Hf, IH. Qed.

Lemma str_all_lstrip p s : str_all p s = true → str_all p (lstrip s) = true.
Proof.
  induction s as [|c s IH]; simpl; [done|].
  intros H. destruct (is_space c); [|done].
  apply andb_true_iff in H as [_ H]. auto.
Qed.

Lemma str_all_rstrip p s : str_all p s = true → str_all p (rstrip s) = true.
Proof.
  induction s as [|c s IH]; simpl; [done|].
  intros [Hc Hs]%andb_true_iff. specialize (IH Hs).
  destruct (rstrip s) eqn:E.
  - destruct (is_space c); simpl; [done|]. by rewrite Hc.
  - simpl in *. by rewrite Hc, IH.
Qed.

Lemma str_all_collapse p s :
  p " "%char = true → str_all p s = true → str_all p (collapse_whitespace s) = true.
Proof.
  intros Hsp. induction s as [|c s IH]; simpl; [done|].
  intros [Hc Hs]%andb_true_iff. specialize (IH Hs).
  destruct (is_space c); [destruct (starts_with_space s)|]; simpl; try done.
  - by rewrite Hsp.
  - by rewrite Hc.
Qed.

(** Leading and trailing whitespace. *)

Lemma lstrip_starts s : starts_with_space (lstrip s) = false.
Proof.
  induction s as [|c s IH]; simpl; [done|].
  destruct (is_space c) eqn:E; [done|]. simpl. by rewrite E.
Qed.

Lemma lstrip_id s : starts_with_space s = false → lstrip s = s.
Proof. destruct s as [|c s]; simpl; [done|]. by intros ->. Qed.

Lemma rstrip_starts s : starts_with_space s = false → starts_with_space (rstrip s) = false.
Proof.
  destruct s as [|c s]; simpl; [done|]. intros Hc.
  destruct (rstrip s); simpl; by rewrite Hc.
Qed.

Lemma rstrip_ends s : ends_with_space (rstrip s) = false.
Proof.
  induction s as [|c s IH]; simpl; [done|].
  destruct (rstrip s) as [|d r] eqn:E.
  - destruct (is_space c) eqn:Hc; simpl; [done|]. by rewrite Hc.
  - simpl in *. done.
Qed.

Lemma rstrip_id s : ends_with_space s = false → rstrip s = s.
Proof.
  induction s as [|c s IH]; simpl; [done|].
  destruct s as [|d r].
  - intros ->. done.
  - intros H. rewrite (IH H). done.
Qed.

Lemma strip_id s :
  starts_with_space s = false → ends_with_space s = false → strip s = s.
Proof. intros H1 H2. unfold strip. rewrite (lstrip_id _ H1). by apply rstrip_id. Qed.

Lemma strip_starts s : starts_with_space (strip s) = false.
Proof. apply rstrip_starts, lstrip_starts. Qed.

Lemma strip_ends s : ends_with_space (strip s) = false.
Proof. apply rstrip_ends. Qed.

Lemma collapse_starts s :
  starts_with_space (collapse_whitespace s) = starts_with_space s.
Proof.
  induction s as [|c s IH]; simpl; [done|].
  destruct (is_space c) eqn:Hc; simpl; [|done].
  destruct (starts_with_space s) eqn:Hs; [by rewrite IH|done].
Qed.

Lemma ends_with_space_cons c t :
  t ≠ EmptyString → ends_with_space (String c t) = ends_with_space t.
Proof. by destruct t. Qed.

Lemma collapse_nonempty d r : collapse_whitespace (String d r) ≠ EmptyString.
Proof.
  revert d. induction r as [|e r IH]; intros d; simpl.
  - by destruct (is_space d).
  - destruct (is_space d); [destruct (is_space e) eqn:He|]; try done.
    specialize (IH e). simpl in IH. by rewrite He in IH.
Qed.

Lemma collapse_ends s :
  ends_with_space (collapse_whitespace s) = ends_with_space s.
Proof.
  induction s as [|c s IH]; [done|].
  destruct s as [|d r].
  - simpl. destruct (is_space c) eqn:Hc; simpl; by rewrite ?Hc.
  - rewrite (ends_with_space_cons c) by done. rewrite <- IH.
    pose proof (collapse_nonempty d r) as Hne.
    change (collapse_whitespace (String c (String d r))) with
      (if is_space c then
         if is_space d then collapse_whitespace (String d r)
         else String " " (collapse_whitespace (String d r))
       else String c (collapse_whitespace (String d r))).
    destruct (is_space c); [destruct (is_space d)|]; [done| |];
      by apply ends_with_space_cons.
Qed.

Lemma collapse_idem s :
  collapse_whitespace (collapse_whitespace s) = collapse_whitespace s.
Proof.
  induction s as [|c s IH]; simpl; [done|].
  destruct (is_space c) eqn:Hc.
  - destruct (starts_with_space s) eqn:Hs; [done|].
    simpl. rewrite collapse_starts, Hs. by rewrite IH.
  - simpl. by rewrite Hc, IH.
Qed.

Lemma is_plain_lower c : is_plain (lower_char c) = is_plain c.
Proof. unfold is_plain. by rewrite lower_char_word, lower_char_space. Qed.

Lemma is_lowered_lower c : is_lowered (lower_char c) = true.
Proof. unfold is_lowered. rewrite lower_char_idem. apply Ascii.eqb_refl. Qed.

Lemma lower_id s : str_all is_lowered s = true → lower s = s.
Proof.
  unfold lower. induction s as [|c s IH]; simpl; [done|].
  intros [Hc Hs]%andb_true_iff. apply Ascii.eqb_eq in Hc. by rewrite Hc, IH.
Qed.

Lemma str_all_lower_lowered s : str_all is_lowered (lower s) = true.
Proof.
  unfold lower. induction s as [|c s IH]; simpl; [done|].
  by rewrite is_lowered_lower, IH.
Qed.

Lemma str_all_strip p s : str_all p s = true → str_all p (strip s) = true.
Proof. intros H. by apply str_all_rstrip, str_all_lstrip. Qed.

End text_facts.


(** ** Name normalization *)

(** The text [normalize] has before punctuation is removed. *)
Lemma normalize_plain x :
  Py.str_all Py.is_plain x = true →
  normalize x = Py.collapse_whitespace (Py.strip (Py.lower x)).
Proof.
  intros Hx. unfold normalize, Py.remove_special.
  apply str_filter_all, str_all_collapse; [done|].
  apply str_all_strip. unfold Py.lower.
  by rewrite (str_all_map _ _ _ is_plain_lower).
Qed.

Lemma normalize_is_plain x : Py.str_all Py.is_plain (normalize x) = true.
Proof. apply str_all_filter. Qed.

(** A name without punctuation is normalized in one pass. *)
Lemma normalize_fixed x :
  Py.str_all Py.is_plain x = true → normalize (normalize x) = normalize x.
Proof.
  intros Hx. rewrite (normalize_plain x Hx).
  set (t := Py.collapse_whitespace (Py.strip (Py.lower x))).
  assert (Hplain : Py.str_all Py.is_plain t = true).
  { unfold t. rewrite <- (normalize_plain x Hx). apply normalize_is_plain. }
  assert (Hlow : Py.lower t = t).
  { unfold t. apply lower_id, str_all_collapse; [done|].
    apply str_all_strip, str_all_lower_lowered. }
  assert (Hstrip : Py.strip t = t).
  { apply strip_id; unfold t.
    - rewrite collapse_starts. apply strip_starts.
    - rewrite collapse_ends. apply strip_ends. }
  rewrite (normalize_plain t Hplain), Hlow, Hstrip.
  apply collapse_idem.
Qed.

(** C4, as the specification words it, fails: removing punctuation after
    stripping can leave a trailing blank, and a hyphen is deleted where a
    blank is kept. *)
Lemma normalize_not_idempotent :
  normalize (normalize "a -") ≠ normalize "a -"
  ∧ normalize "harvey-ai " ≠ normalize "Harvey AI".
Proof. split; vm_compute; discriminate. Qed.

(** C4 (amended): [normalize] is idempotent on every name without
    punctuation, and on every name a second pass reaches a fixed point;
    "Harvey AI" and "HARVEY AI" both normalize to "harvey ai", while
    "harvey-ai " normalizes to "harveyai". *)
Theorem normalize_idempotent_on_plain_names :
  (∀ x, Py.str_all Py.is_plain x = true → normalize (normalize x) = normalize x)
  ∧ (∀ x, normalize (normalize (normalize x)) = normalize (normalize x))
  ∧ normalize "Harvey AI" = "harvey ai"
  ∧ normalize "HARVEY AI" = "harvey ai"
  ∧ normalize "harvey-ai " = "harveyai".
Proof.
  split; [exact normalize_fixed|].
  split; [intros x; apply normalize_fixed, normalize_is_plain|].
  by vm_compute.
Qed.

Lemma normalize_idempotent_on_plain_names_witness :
  Py.str_all Py.is_plain "Harvey AI" = true
  ∧ normalize (normalize "Harvey AI") = normalize "Harvey AI".
Proof.
  split; [reflexivity|].
  apply (proj1 normalize_idempotent_on_plain_names "Harvey AI"). reflexivity.
Defined.

(** ** Deduplication *)

Lemma dedup_loop_first_occurrences seen earlier unique cs :
  (∀ k, (2 < String.length k)%nat → k ∈ seen ↔ k ∈ earlier) →
  dedup_loop seen unique cs = unique ++ first_occurrences earlier cs.
Proof.
  revert seen earlier unique.
  induction cs as [|c cs IH]; intros seen earlier unique Hinv; simpl.
  - by rewrite app_nil_r.
  - set (k := normalize (name c)).
    destruct (2 <? String.length k)%nat eqn:Hlen.
    + apply Nat.ltb_lt in Hlen.
      destruct (decide (k ∈ seen)) as [Hin|Hnin].
      * rewrite (bool_decide_eq_false_2 (k ∉ seen)) by auto.
        rewrite (bool_decide_eq_false_2 (k ∉ earlier)) by (rewrite <- Hinv; auto).
        simpl. apply IH. intros k' Hk'. rewrite elem_of_cons, <- Hinv by done.
        split; [auto|]. by intros [->|].
      * rewrite (bool_decide_eq_true_2 (k ∉ seen)) by done.
        rewrite (bool_decide_eq_true_2 (k ∉ earlier)) by (by rewrite <- Hinv).
        simpl. rewrite (IH ({[k]} ∪ seen) (k :: earlier)), <- app_assoc; [done|].
        intros k' Hk'.
        rewrite elem_of_cons, elem_of_union, elem_of_singleton, <- Hinv by done.
        done.
    + rewrite !andb_false_r. simpl. apply IH.
      intros k' Hk'. rewrite elem_of_cons, <- Hinv by done.
      split; [auto|]. intros [->|]; [|done].
      apply Nat.ltb_ge in Hlen. lia.
Qed.

Lemma first_occurrences_sublist earlier cs : sublist (first_occurrences earlier cs) cs.
Proof.
  revert earlier. induction cs as [|c cs IH]; intros earlier; simpl; [done|].
  destruct (_ && _); simpl.
  - by apply sublist_skip.
  - by apply sublist_cons.
Qed.

Lemma first_occurrences_fresh earlier cs c :
  c ∈ first_occurrences earlier cs →
  (dedup_key c ∉ earlier) ∧ (2 < String.length (dedup_key c))%nat.
Proof.
  revert earlier. induction cs as [|d cs IH]; intros earlier; simpl.
  - by intros ?%elem_of_nil.
  - rewrite elem_of_app. intros [Hc|Hc].
    + destruct (bool_decide _ && _) eqn:E; [|by apply elem_of_nil in Hc].
      apply list_elem_of_singleton in Hc as ->.
      apply andb_true_iff in E as [E1 E2].
      apply bool_decide_eq_true in E1. apply Nat.ltb_lt in E2. done.
    + apply IH in Hc as [Hc ?]. split; [|done].
      intros Hin. apply Hc. by right.
Qed.

Lemma first_occurrences_NoDup earlier cs :
  NoDup (dedup_key <$> first_occurrences earlier cs).
Proof.
  revert earlier. induction cs as [|d cs IH]; intros earlier; simpl.
  - constructor.
  - destruct (bool_decide _ && _); simpl; [|apply IH].
    constructor; [|apply IH].
    intros (c & Hk & Hc)%list_elem_of_fmap.
    apply first_occurrences_fresh in Hc as [Hc _].
    apply Hc. rewrite <- Hk. by left.
Qed.

Lemma deduplicate_first_occurrences cs :
  deduplicate_companies cs = first_occurrences [] cs.
Proof.
  unfold deduplicate_companies.
  rewrite (dedup_loop_first_occurrences ∅ [] [] cs); [done|].
  intros k _. split; [by intros ?%elem_of_empty|by intros ?%elem_of_nil].
Qed.

(** C5, as the specification words it, fails on a short name: the only
    occurrence of the key "ai" is not retained. *)
Lemma dedup_drops_only_occurrence :
  first_occurrences_unguarded [] [known_company "AI"] = [known_company "AI"]
  ∧ deduplicate_companies [known_company "AI"] = [].
Proof. split; by vm_compute. Qed.

(** C5 (amended): deduplication keys candidates by normalized name; the
    first occurrence of each normalized name longer than two characters
    is retained, every later candidate with the same normalized name is
    dropped, and first-seen order is preserved; dedupe of "Harvey AI",
    "harvey ai", "DoNotPay" keeps exactly "Harvey AI" and "DoNotPay". *)
Theorem dedup_first_occurrence_wins :
  (∀ cs, deduplicate_companies cs = first_occurrences [] cs)
  ∧ (∀ cs, sublist (deduplicate_companies cs) cs)
  ∧ (∀ cs, NoDup (dedup_key <$> deduplicate_companies cs))
  ∧ (∀ cs i c,
       cs !! i = Some c →
       (2 < String.length (dedup_key c))%nat →
       (∀ j d, (j < i)%nat → cs !! j = Some d → dedup_key d ≠ dedup_key c) →
       c ∈ deduplicate_companies cs)
  ∧ deduplicate_companies
      [known_company "Harvey AI"; known_company "harvey ai"; known_company "DoNotPay"]
    = [known_company "Harvey AI"; known_company "DoNotPay"].
Proof.
  split; [exact deduplicate_first_occurrences|].
  split; [intros cs; rewrite deduplicate_first_occurrences;
          apply first_occurrences_sublist|].
  split; [intros cs; rewrite deduplicate_first_occurrences;
          apply first_occurrences_NoDup|].
  split; [|by vm_compute].
  intros cs i c Hi Hlen Hfirst. rewrite deduplicate_first_occurrences.
  assert (Hgen : ∀ earlier, dedup_key c ∉ earlier →
            c ∈ first_occurrences earlier cs); [|apply Hgen, not_elem_of_nil].
  clear -Hi Hlen Hfirst. revert i Hi Hfirst.
  induction cs as [|d cs IH]; intros i Hi Hfirst earlier Hfresh; [done|].
  simpl. rewrite elem_of_app. destruct i as [|i]; simpl in Hi.
  - injection Hi as ->. left. fold (dedup_key c).
    rewrite bool_decide_eq_true_2 by done.
    apply Nat.ltb_lt in Hlen. rewrite Hlen. simpl. by left.
  - right. apply (IH i); [done| |].
    + intros j e Hj He. apply (Hfirst (S j) e); [lia|done].
    + fold (dedup_key d). rewrite not_elem_of_cons. split; [|done].
      intros Heq. apply (Hfirst 0%nat d); [lia|done|done].
Qed.

Lemma dedup_first_occurrence_wins_witness :
  known_company "DoNotPay"
    ∈ deduplicate_companies
        [known_company "Harvey AI"; known_company "harvey ai"; known_company "DoNotPay"].
Proof.
  apply (proj1 (proj2 (proj2 (proj2 dedup_first_occurrence_wins)))
           _ 2%nat (known_company "DoNotPay")).
  - reflexivity.
  - vm_compute. lia.
  - intros [|[|j]] d Hj Hd; [| |lia]; injection Hd as <-; vm_compute; discriminate.
Defined.

(** C10: a candidate whose normalized name has two characters or fewer is
    never in the output, whatever else the list holds; so the output can
    be shorter than the number of distinct normalized names. *)
Theorem dedup_drops_short_names :
  (∀ cs c, (String.length (dedup_key c) <= 2)%nat → c ∉ deduplicate_companies cs)
  ∧ (length (deduplicate_companies [known_company "AI"; known_company "Harvey AI"])
     < length (remove_dups
         (dedup_key <$> [known_company "AI"; known_company "Harvey AI"])))%nat.
Proof.
  split.
  - intros cs c Hlen Hin. rewrite deduplicate_first_occurrences in Hin.
    apply first_occurrences_fresh in Hin as [_ Hin]. lia.
  - vm_compute. lia.
Qed.

Lemma dedup_drops_short_names_witness :
  known_company "AI" ∉ deduplicate_companies [known_company "AI"; known_company "Clio"].
Proof.
  apply (proj1 dedup_drops_short_names). vm_compute. lia.
Defined.

(** ** Classification and confidence *)

Lemma classify_relevance_cases text :
  classify_relevance text = ("direct", 3)
  ∨ classify_relevance text = ("indirect", 2)
  ∨ classify_relevance text = ("peripheral", 1).
Proof.
  unfold classify_relevance.
  destruct (Py.any_in direct_terms text); [auto|].
  destruct (Py.any_in indirect_terms text); auto.
Qed.

(** The loop body raises exactly when [description] is bound to [None]. *)
Lemma classify_company_total c :
  description c ≠ PyNone → is_Some (classify_company c).
Proof.
  intros Hd. unfold classify_company, confidence_score, description_lower.
  destruct (description c); [|done|]; simpl; eauto.
Qed.

(** C3, as the specification words it, fails: five points are at or above
    the cut point four, so the candidate is rated "very_high". *)
Lemma starred_api_candidate_not_high :
  ∃ c', classify_company starred_api_candidate = Some c'
    ∧ relevance c' = Some "direct"
    ∧ Py.isin "API" (default EmptyString (source starred_api_candidate)) = true
    ∧ github_stars starred_api_candidate = Some 150
    ∧ confidence_score starred_api_candidate = Some 5
    ∧ confidence c' ≠ "high".
Proof. eexists. repeat split; vm_compute; discriminate. Qed.

(** C3 (amended): the confidence is a point score, the points of the
    relevance tier (direct 3, indirect 2, peripheral 1) plus one point
    each for "API" in the source tag, more than 100 stars and more than
    50 votes, cut at 4 (very_high), 3 (high) and 2 (medium); a direct
    candidate with an API source and 150 stars scores 5 and is rated
    "very_high", a peripheral candidate without bonus scores 1 and is
    rated "low". *)
Theorem confidence_is_point_score c c' :
  classify_company c = Some c' →
  ∃ tier,
    relevance c' = Some tier
    ∧ tier ∈ ["direct"; "indirect"; "peripheral"]
    ∧ let api := Py.isin "API" (default EmptyString (source c)) in
      let starred := 100 <? default 0 (github_stars c) in
      let voted := 50 <? default 0 (votes c) in
      let points := relevance_points tier + bonus api + bonus starred + bonus voted in
      confidence_score c = Some points
      ∧ confidence c' =
          (if 4 <=? points then "very_high" else if 3 <=? points then "high"
           else if 2 <=? points then "medium" else "low")
      ∧ (tier = "direct" → api = true → github_stars c = Some 150 → voted = false →
         points = 5 ∧ confidence c' = "very_high")
      ∧ (tier = "peripheral" → api = false → starred = false → voted = false →
         points = 1 ∧ confidence c' = "low").
Proof.
  unfold classify_company, confidence_score.
  destruct (description_lower c) as [descr|]; [|done]. simpl.
  intros [= <-]. simpl.
  set (text := Py.lower (name c) +:+ descr).
  set (api := Py.isin "API" (default EmptyString (source c))).
  set (starred := 100 <? default 0 (github_stars c)).
  set (voted := 50 <? default 0 (votes c)).
  assert (Hsum : ∀ base : Z,
    (if voted then (if starred then (if api then 0 + base + 1 else 0 + base) + 1
                    else if api then 0 + base + 1 else 0 + base) + 1
     else if starred then (if api then 0 + base + 1 else 0 + base) + 1
          else if api then 0 + base + 1 else 0 + base)
    = base + bonus api + bonus starred + bonus voted).
  { intros base. destruct api, starred, voted; unfold bonus; lia. }
  exists (classify_relevance text).1.
  destruct (classify_relevance_cases text) as [E|[E|E]]; rewrite E; simpl;
    rewrite Hsum; (split; [done|]); (split; [set_solver|]);
    (split; [done|]); (split; [done|]); split.
  all: try (intros [=]; fail).
  all: try (intros _ Ha Hs Hv; subst starred; try rewrite Hs in *; rewrite ?Ha, ?Hv;
            by vm_compute).
  all: try (intros _ Ha Hs Hv; rewrite Ha, Hs, Hv; by vm_compute).
Qed.

Lemma confidence_is_point_score_witness :
  ∃ tier, relevance (mkCompany "LexBot" (Some "GitHub API") "legal_tech_github"
                       "very_high" (Val "Legal assistant for tenants")
                       (Some 150) None (Some "direct")) = Some tier.
Proof.
  destruct (confidence_is_point_score starred_api_candidate
              (mkCompany "LexBot" (Some "GitHub API") "legal_tech_github"
                 "very_high" (Val "Legal assistant for tenants")
                 (Some 150) None (Some "direct")) eq_refl) as (tier & H & _).
  exists tier. exact H.
Defined.

(** ** Substrings *)

Lemma isin_unfold t s :
  Py.isin t s =
  String.prefix t s || match s with EmptyString => false | String _ r => Py.isin t r end.
Proof. by destruct s. Qed.

Lemma prefix_extend t s x : String.prefix t s = true → String.prefix t (s +:+ x) = true.
Proof.
  revert s. induction t as [|c t IH]; intros s.
  - intros _. by destruct (s +:+ x).
  - destruct s as [|d s]; simpl; [done|].
    destruct (ascii_dec c d); [apply IH|done].
Qed.

Lemma prefix_self t x : String.prefix t (t +:+ x) = true.
Proof.
  induction t as [|c t IH]; simpl; [by destruct x|].
  by destruct (ascii_dec c c).
Qed.

Lemma isin_extend_r t s x : Py.isin t s = true → Py.isin t (s +:+ x) = true.
Proof.
  induction s as [|c s IH].
  - simpl. rewrite orb_false_r. intros H. rewrite isin_unfold.
    by rewrite (prefix_extend t EmptyString x H).
  - change (Py.isin t (String c s +:+ x)) with
      (String.prefix t (String c s +:+ x) || Py.isin t (s +:+ x)).
    rewrite (isin_unfold t (String c s)). intros [H|H]%orb_true_iff.
    + by rewrite (prefix_extend t (String c s) x H).
    + rewrite (IH H). apply orb_true_r.
Qed.

Lemma isin_extend_l t s x : Py.isin t s = true → Py.isin t (x +:+ s) = true.
Proof.
  intros H. induction x as [|c x IH]; simpl; [done|].
  rewrite IH. apply orb_true_r.
Qed.

Lemma isin_inserted t a b : Py.isin t (a +:+ t +:+ b) = true.
Proof.
  apply isin_extend_l. rewrite isin_unfold. by rewrite prefix_self.
Qed.

Lemma any_in_intro terms k text :
  k ∈ terms → Py.isin k text = true → Py.any_in terms text = true.
Proof.
  intros Hk Hin. apply existsb_exists. exists k.
  split; [by apply list_elem_of_In|done].
Qed.

(** A text that gained a qualifying word contains a term. *)
Lemma any_in_inserted terms w s s' :
  qualifies terms w → inserted w s s' → Py.any_in terms (Py.lower s') = true.
Proof.
  intros Hw [a b]. apply (any_in_intro _ (Py.lower w)); [done|].
  rewrite !lower_app. apply isin_inserted.
Qed.

Lemma existsb_insert {A} (f : A → bool) (l : list A) i x y :
  l !! i = Some x → f y = true → existsb f (<[i := y]> l) = true.
Proof.
  intros Hi Hy. apply existsb_exists. exists y. split; [|done].
  apply list_elem_of_In, list_elem_of_lookup. exists i.
  apply list_lookup_insert_eq. by apply lookup_lt_Some in Hi.
Qed.

(** ** The capability score of the fallback *)

Lemma ai_indicators_weights n sd :
  ai_indicators n sd
  = 2 * bonus (name_hit n) + bonus (search_hit sd) + bonus (news_hit sd)
    + bonus (repo_hit sd).
Proof.
  unfold ai_indicators, name_hit, search_hit, news_hit, repo_hit, bonus.
  repeat match goal with |- context [if ?b then _ else _] => destruct b end; lia.
Qed.

Lemma capability_rank_thresholds score :
  capability_rank (ai_capability score)
  = if 3 <=? score then 2%nat else if 1 <=? score then 1%nat else 0%nat.
Proof.
  unfold ai_capability.
  destruct (3 <=? score); [done|]. by destruct (1 <=? score).
Qed.

Lemma article_gains_hit w a a' :
  qualifies news_ai_terms w → article_gains w a a' →
  Py.any_in news_ai_terms (Py.lower (article_text a')) = true.
Proof.
  intros Hw Ha. apply (any_in_intro _ (Py.lower w)); [done|].
  unfold article_text. destruct Ha as [a t [x y]|a d [x y]]; simpl;
    rewrite !lower_app.
  - apply isin_extend_r, isin_inserted.
  - do 2 apply isin_extend_l. apply isin_inserted.
Qed.

Lemma repo_gains_hit w r r' :
  qualifies repo_ai_terms w → repo_gains w r r' →
  Py.any_in repo_ai_terms (Py.lower (repo_text r')) = true.
Proof.
  intros Hw Hr. apply (any_in_intro _ (Py.lower w)); [done|].
  unfold repo_text. destruct Hr as [r n [x y]|r d [x y]]; simpl;
    rewrite !lower_app.
  - apply isin_extend_r, isin_inserted.
  - do 2 apply isin_extend_l. apply isin_inserted.
Qed.

Lemma bonus_le b : 0 <= bonus b <= bonus true.
Proof. destruct b; unfold bonus; lia. Qed.

Lemma adds_keyword_score p p' :
  adds_keyword p p' → ai_indicators p.1 p.2 <= ai_indicators p'.1 p'.2.
Proof.
  intros H. rewrite !ai_indicators_weights.
  destruct H as [w n n' sd Hw Hi|w n sd s' Hw Hi|w n sd i a a' Hw Hl Ha
                |w n sd g i r r' Hw Hg Hl Hr|w n sd i d d' Hl Hd]; simpl.
  - assert (name_hit n' = true) as -> by exact (any_in_inserted _ _ _ _ Hw Hi).
    pose proof (bonus_le (name_hit n)). lia.
  - change (news_hit (with_search_results sd s')) with (news_hit sd).
    change (repo_hit (with_search_results sd s')) with (repo_hit sd).
    assert (search_hit (with_search_results sd s') = true) as ->
      by exact (any_in_inserted _ _ _ _ Hw Hi).
    pose proof (bonus_le (search_hit sd)). lia.
  - set (news := <[i := a']> (SearchData.news_mentions sd)).
    change (search_hit (with_news sd news)) with (search_hit sd).
    change (repo_hit (with_news sd news)) with (repo_hit sd).
    assert (news_hit (with_news sd news) = true) as ->
      by exact (existsb_insert _ _ _ _ _ Hl (article_gains_hit _ _ _ Hw Ha)).
    pose proof (bonus_le (news_hit sd)). lia.
  - set (g' := with_repos g (<[i := r']> (GitHub.public_repos g))).
    change (search_hit (with_github sd g')) with (search_hit sd).
    change (news_hit (with_github sd g')) with (news_hit sd).
    assert (repo_hit (with_github sd g') = true) as ->
      by exact (existsb_insert _ _ _ _ _ Hl (repo_gains_hit _ _ _ Hw Hr)).
    pose proof (bonus_le (repo_hit sd)). lia.
  - set (tech := <[i := d']> (SearchData.tech_mentions sd)).
    change (search_hit (with_tech sd tech)) with (search_hit sd).
    change (news_hit (with_tech sd tech)) with (news_hit sd).
    change (repo_hit (with_tech sd tech)) with (repo_hit sd). lia.
Qed.

(** C8: the capability score is twice the name check plus the search,
    news and repository checks, "Yes" from three points and "Possible"
    from one; adding a qualifying keyword to a text source lowers
    neither the score nor the answer. *)
Theorem ai_capability_monotone n sd n' sd' :
  adds_keyword (n, sd) (n', sd') →
  ai_indicators n sd
    = 2 * bonus (name_hit n) + bonus (search_hit sd) + bonus (news_hit sd)
      + bonus (repo_hit sd)
  ∧ capability_rank (ai_capability (ai_indicators n sd))
    = (if 3 <=? ai_indicators n sd then 2%nat
       else if 1 <=? ai_indicators n sd then 1%nat else 0%nat)
  ∧ ai_indicators n sd <= ai_indicators n' sd'
  ∧ (capability_rank (ai_capability (ai_indicators n sd))
     <= capability_rank (ai_capability (ai_indicators n' sd')))%nat.
Proof.
  intros H. apply adds_keyword_score in H. simpl in H.
  split; [apply ai_indicators_weights|].
  split; [apply capability_rank_thresholds|].
  split; [done|].
  rewrite !capability_rank_thresholds.
  repeat match goal with |- context [?a <=? ?b] =>
    destruct (Z.leb_spec a b) end; lia.
Qed.

Lemma ai_capability_monotone_witness :
  ai_indicators "Acme" (with_search_results no_evidence "legal intake ")
  <= ai_indicators "Acme" (with_search_results no_evidence "legal intake chatbot").
Proof.
  apply (ai_capability_monotone "Acme" (with_search_results no_evidence "legal intake ")
           "Acme" (with_search_results no_evidence "legal intake chatbot")).
  apply (add_to_search "chatbot" "Acme" (with_search_results no_evidence "legal intake ")).
  - unfold qualifies. vm_compute. repeat constructor.
  - exact (inserted_at "chatbot" "legal intake " "").
Defined.

(** ** Dictionaries *)

Lemma dict_update_lookup {V} (d other : gmap string V) k :
  dict_update d other !! k =
  match other !! k with
  | Some v => Some v
  | None => d !! k
  end.
Proof.
  unfold dict_update. rewrite lookup_union.
  destruct (other !! k), (d !! k); done.
Qed.

Lemma as_json_lookup d k : as_json d !! k = JStr <$> d !! k.
Proof. apply lookup_fmap. Qed.

Ltac dict_lookup :=
  repeat first
    [ rewrite lookup_insert_eq
    | rewrite lookup_insert_ne by done
    | rewrite lookup_empty ].

(** ** Funding stage of the fallback *)

Lemma prefix_inv t s : String.prefix t s = true → ∃ y, s = t +:+ y.
Proof.
  revert s. induction t as [|c t IH]; intros s.
  - intros _. by exists s.
  - destruct s as [|d s]; simpl; [done|].
    destruct (ascii_dec c d) as [->|]; [|done].
    intros [y ->]%IH. by exists y.
Qed.

Lemma isin_inv t s : Py.isin t s = true → ∃ x y, s = x +:+ t +:+ y.
Proof.
  induction s as [|c s IH]; rewrite isin_unfold.
  - rewrite orb_false_r. intros [y ->]%prefix_inv. by exists EmptyString, y.
  - intros [H|H]%orb_true_iff.
    + apply prefix_inv in H as [y ->]. by exists EmptyString, y.
    + apply IH in H as (x & y & ->). by exists (String c x), y.
Qed.

Lemma isin_trans a b c :
  Py.isin a b = true → Py.isin b c = true → Py.isin a c = true.
Proof.
  intros Hab (x & y & ->)%isin_inv.
  by apply isin_extend_l, isin_extend_r.
Qed.

Lemma find_first {A} (f : A → bool) before a after :
  Forall (λ b, f b = false) before → f a = true →
  find f (before ++ a :: after) = Some a.
Proof.
  intros Hb Ha. induction Hb as [|b before Hfb _ IH]; simpl.
  - by rewrite Ha.
  - by rewrite Hfb.
Qed.

Lemma find_none {A} (f : A → bool) l :
  Forall (λ b, f b = false) l → find f l = None.
Proof. induction 1 as [|b l Hb _ IH]; simpl; [done|]. by rewrite Hb. Qed.

Section fallback_facts.

Variable set_order : list string → list string.

Lemma fallback_lookup_stage n sd :
  enhanced_fallback_analysis set_order n sd !! "stage" = Some (fallback_stage sd).
Proof. unfold enhanced_fallback_analysis. simpl. by dict_lookup. Qed.

Lemma fallback_lookup_coverage n sd :
  enhanced_fallback_analysis set_order n sd !! "coverage"
  = Some (fallback_coverage set_order sd).
Proof. unfold enhanced_fallback_analysis. simpl. by dict_lookup. Qed.

Lemma fallback_lookup_capability n sd :
  enhanced_fallback_analysis set_order n sd !! "ai_powered_legal_chatbot"
  = Some (ai_capability (ai_indicators n sd)).
Proof. unfold enhanced_fallback_analysis. simpl. by dict_lookup. Qed.

Lemma fallback_lookup_comment n sd :
  enhanced_fallback_analysis set_order n sd !! "comment"
  = Some (fallback_comment n sd).
Proof. unfold enhanced_fallback_analysis. simpl. by dict_lookup. Qed.

Lemma fallback_lookup_fundraising n sd :
  enhanced_fallback_analysis set_order n sd !! "fundraising_stage" = None.
Proof. unfold enhanced_fallback_analysis. simpl. by dict_lookup. Qed.

End fallback_facts.

Section enrichment_facts.

Variable re_findall : regex → string → list string.
Variable set_order : list string → list string.

(** C7, as the specification words it, fails: the fallback heuristic
    reads "Growth" from the Series B article but has no
    [fundraising_stage], and in the profile the funding agent overwrites
    both attributes. *)
Lemma series_b_news_gives_no_fundraising_stage :
  Py.isin "raised a Series B" (article_text series_b_article) = true
  ∧ enhanced_fallback_analysis insertion_order "Acme" series_b_evidence !! "stage"
    = Some "Growth"
  ∧ enhanced_fallback_analysis insertion_order "Acme" series_b_evidence
      !! "fundraising_stage" = None
  ∧ ∃ profile,
      research_single_company no_matches insertion_order series_b_run "Acme" JNull
      = Some profile
      ∧ profile !! "fundraising_stage" = Some (JStr "Unknown")
      ∧ profile !! "fundraising_stage" ≠ Some (JStr "Series B").
Proof.
  split; [by vm_compute|]. split; [by vm_compute|]. split; [by vm_compute|].
  assert (H : research_single_company no_matches insertion_order series_b_run
                "Acme" JNull ≫= (λ profile, profile !! "fundraising_stage")
              = Some (JStr "Unknown")) by (vm_compute; reflexivity).
  destruct (research_single_company no_matches insertion_order series_b_run
              "Acme" JNull) as [profile|]; [|discriminate H].
  exists profile. change (profile !! "fundraising_stage" = Some (JStr "Unknown")) in H.
  split; [reflexivity|]. split; [exact H|]. rewrite H. discriminate.
Qed.

(** C7 (amended): in the fallback heuristic the stage is read from the
    first news item with a funding keyword ("series c/d" Established,
    else "series a/b" Growth, else "seed" Startup, else Unknown), and
    only when no news item has one from the incorporation year against
    2025 (at least 8 years Established, at least 4 Growth, else
    Startup).  A first funding item with "raised a Series B" and neither
    "series c" nor "series d" gives Growth; incorporation date "2015"
    without funding news gives Established; the heuristic sets no
    [fundraising_stage]. *)
Theorem fallback_stage_from_news_then_registry n sd :
  enhanced_fallback_analysis set_order n sd !! "stage" = Some (fallback_stage sd)
  ∧ enhanced_fallback_analysis set_order n sd !! "fundraising_stage" = None
  ∧ (∀ before a after,
       SearchData.news_mentions sd = before ++ a :: after →
       Forall (λ b, is_funding_article b = false) before →
       is_funding_article a = true →
       fallback_stage sd =
         let text := Py.lower (article_text a) in
         if Py.isin "series c" text || Py.isin "series d" text then "Established"
         else if Py.isin "series a" text || Py.isin "series b" text then "Growth"
         else if Py.isin "seed" text then "Startup"
         else "Unknown")
  ∧ (∀ before a after,
       SearchData.news_mentions sd = before ++ a :: after →
       Forall (λ b, is_funding_article b = false) before →
       Py.isin "raised a series b" (Py.lower (article_text a)) = true →
       Py.isin "series c" (Py.lower (article_text a)) = false →
       Py.isin "series d" (Py.lower (article_text a)) = false →
       fallback_stage sd = "Growth")
  ∧ (∀ corp date year,
       Forall (λ b, is_funding_article b = false) (SearchData.news_mentions sd) →
       SearchData.corporate_data sd = Some corp →
       Corporate.incorporation_date corp = Some date →
       py_int (Py.take 4 date) = Some year →
       fallback_stage sd =
         if 8 <=? 2025 - year then "Established"
         else if 4 <=? 2025 - year then "Growth"
         else "Startup")
  ∧ (∀ corp,
       Forall (λ b, is_funding_article b = false) (SearchData.news_mentions sd) →
       SearchData.corporate_data sd = Some corp →
       Corporate.incorporation_date corp = Some "2015" →
       fallback_stage sd = "Established").
Proof.
  split; [apply fallback_lookup_stage|].
  split; [apply fallback_lookup_fundraising|].
  assert (Hfirst : ∀ before a after,
    SearchData.news_mentions sd = before ++ a :: after →
    Forall (λ b, is_funding_article b = false) before →
    is_funding_article a = true →
    fallback_stage sd = stage_of_article a).
  { intros before a after Hnews Hb Ha. unfold fallback_stage.
    by rewrite Hnews, (find_first _ _ _ _ Hb Ha). }
  assert (Hdate : ∀ corp date year,
    Forall (λ b, is_funding_article b = false) (SearchData.news_mentions sd) →
    SearchData.corporate_data sd = Some corp →
    Corporate.incorporation_date corp = Some date →
    py_int (Py.take 4 date) = Some year →
    fallback_stage sd =
      if 8 <=? 2025 - year then "Established"
      else if 4 <=? 2025 - year then "Growth"
      else "Startup").
  { intros corp date year Hnews Hcorp Hinc Hyear. unfold fallback_stage.
    rewrite (find_none _ _ Hnews), Hcorp. unfold truthy_field. rewrite Hinc.
    destruct date as [|c date]; [by vm_compute in Hyear|]. simpl Py.truthy. cbv iota.
    unfold stage_of_incorporation. by rewrite Hyear. }
  split; [exact Hfirst|].
  split; [|split; [exact Hdate|]].
  - intros before a after Hnews Hb Hraised Hc Hd.
    rewrite (Hfirst before a after Hnews Hb).
    + unfold stage_of_article. rewrite Hc, Hd. simpl.
      rewrite (isin_trans "series b" "raised a series b" _ eq_refl Hraised).
      by rewrite orb_true_r.
    + apply (any_in_intro _ "raised"); [repeat constructor|].
      exact (isin_trans "raised" "raised a series b" _ eq_refl Hraised).
  - intros corp Hnews Hcorp Hinc.
    exact (Hdate corp "2015" 2015 Hnews Hcorp Hinc eq_refl).
Qed.

(** ** Geographic coverage of the fallback *)

Lemma distinct_elem seen l x : x ∈ distinct seen l ↔ x ∈ l ∧ x ∉ seen.
Proof.
  revert seen. induction l as [|y l IH]; intros seen; simpl.
  - split; [by intros ?%elem_of_nil|by intros [?%elem_of_nil _]].
  - case_bool_decide as Hy.
    + rewrite IH, elem_of_cons. split; [intros [??]; auto|].
      intros [[->|?] ?]; [done|auto].
    + rewrite elem_of_cons, IH, !elem_of_cons. split.
      * intros [->|[? Hn]]; [auto|]. split; [auto|]. intros ?. apply Hn. by right.
      * intros [[->|?] Hn]; [auto|].
        destruct (decide (x = y)) as [->|Hne]; [auto|].
        right. split; [done|]. by intros [?|?].
Qed.

Lemma distinct_NoDup seen l : NoDup (distinct seen l).
Proof.
  revert seen. induction l as [|y l IH]; intros seen; simpl; [constructor|].
  case_bool_decide; [apply IH|].
  constructor; [|apply IH].
  rewrite distinct_elem. intros [_ Hn]. apply Hn. by left.
Qed.

Lemma text_indicators_cases t :
  text_indicators t = [] ∨ text_indicators t = ["Germany"]
  ∨ text_indicators t = ["Europe"] ∨ text_indicators t = ["Global"].
Proof.
  unfold text_indicators.
  repeat match goal with |- context [if ?b then _ else _] => destruct b end; auto.
Qed.

Lemma jurisdiction_indicators_cases corp :
  jurisdiction_indicators corp = [] ∨ jurisdiction_indicators corp = ["Germany"]
  ∨ jurisdiction_indicators corp = ["Europe"]
  ∨ jurisdiction_indicators corp = ["Global/US"].
Proof.
  unfold jurisdiction_indicators. destruct (truthy_field _ _); [|auto].
  repeat match goal with |- context [if ?b then _ else _] => destruct b end; auto.
Qed.

(** C9, as the specification words it, fails: a text that names Germany
    and Europe is covered as "Germany" alone. *)
Lemma coverage_keeps_one_text_region :
  "Europe" ∈ coverage_as_specified two_regions_evidence
  ∧ ("Europe" ∉ coverage_indicators two_regions_evidence)
  ∧ fallback_coverage insertion_order two_regions_evidence = "Germany".
Proof.
  split; [vm_compute; repeat constructor|].
  split; [|by vm_compute].
  vm_compute. intros H. apply list_elem_of_singleton in H. discriminate.
Qed.

Hypothesis set_order_permutes : ∀ l, set_order l ≡ₚ l.

(** C9 (amended): the fallback coverage joins with "/" the distinct
    regions among at most two: the region of the registry jurisdiction
    (Germany, else Europe, else Global/US) and the first region, in the
    order Germany, Europe, Global, whose keywords occur in the lowered
    search text followed by the news titles and descriptions; it is
    "Unknown" when there is none. *)
Theorem coverage_joins_matched_regions n sd :
  let corp := SearchData.corporate_data sd in
  let text := all_text sd in
  let german := Py.any_in ["german"; "germany"; "deutsch"] text in
  let european := Py.any_in ["europe"; "european"; "eu"] text in
  let worldwide := Py.any_in ["global"; "worldwide"; "international"] text in
  enhanced_fallback_analysis set_order n sd !! "coverage"
    = Some (fallback_coverage set_order sd)
  ∧ (∀ region, region ∈ coverage_indicators sd ↔
       region ∈ jurisdiction_indicators corp
       ∨ (region = "Germany" ∧ german = true)
       ∨ (region = "Europe" ∧ german = false ∧ european = true)
       ∨ (region = "Global" ∧ german = false ∧ european = false ∧ worldwide = true))
  ∧ (length (jurisdiction_indicators corp) <= 1)%nat
  ∧ (coverage_indicators sd = [] → fallback_coverage set_order sd = "Unknown")
  ∧ (coverage_indicators sd ≠ [] →
     ∃ regions,
       NoDup regions
       ∧ (∀ region, region ∈ regions ↔ region ∈ coverage_indicators sd)
       ∧ fallback_coverage set_order sd = Py.join "/" regions).
Proof.
  intros corp text german european worldwide.
  split; [apply fallback_lookup_coverage|].
  split.
  { intros region. unfold coverage_indicators. rewrite elem_of_app.
    fold corp text. apply or_iff_compat_l.
    unfold text_indicators. fold german european worldwide.
    destruct german, european, worldwide; simpl;
      rewrite ?list_elem_of_singleton, ?elem_of_nil;
      intuition (discriminate || congruence). }
  split.
  { destruct (jurisdiction_indicators_cases corp) as [H|[H|[H|H]]];
      rewrite H; simpl; lia. }
  split.
  { intros H. unfold fallback_coverage. by rewrite H. }
  intros Hne. exists (set_order (distinct [] (coverage_indicators sd))).
  split; [|split].
  - rewrite set_order_permutes. apply distinct_NoDup.
  - intros region. rewrite set_order_permutes, distinct_elem.
    split; [by intros [? _]|]. intros ?. split; [done|apply not_elem_of_nil].
  - unfold fallback_coverage. by destruct (coverage_indicators sd).
Qed.

End enrichment_facts.

Lemma fallback_stage_from_news_then_registry_witness :
  fallback_stage series_b_evidence = "Growth"
  ∧ fallback_stage registry_evidence = "Established".
Proof.
  split.
  - apply (proj1 (proj2 (proj2 (proj2
             (fallback_stage_from_news_then_registry insertion_order "Acme"
                series_b_evidence))))
             [] series_b_article []); [reflexivity|constructor|reflexivity..].
  - apply (proj2 (proj2 (proj2 (proj2 (proj2
             (fallback_stage_from_news_then_registry insertion_order "Acme"
                registry_evidence)))))
             registered_2015); [constructor|reflexivity..].
Defined.

Lemma coverage_joins_matched_regions_witness :
  (∀ l, insertion_order l ≡ₚ l)
  ∧ (coverage_indicators two_regions_evidence ≠ [] →
     ∃ regions,
       NoDup regions
       ∧ (∀ region, region ∈ regions ↔ region ∈ coverage_indicators two_regions_evidence)
       ∧ fallback_coverage insertion_order two_regions_evidence = Py.join "/" regions).
Proof.
  split; [done|].
  apply (coverage_joins_matched_regions insertion_order (λ l, reflexivity l) "Acme"
           two_regions_evidence).
Defined.

(** ** The language-model step *)

Lemma groq_attempts_answer reply retries remaining j :
  (remaining <= retries)%nat →
  groq_attempts reply retries remaining = Some j →
  ∃ i, (retries - remaining <= i < retries)%nat ∧ reply i = Answered (Some j).
Proof.
  revert j. induction remaining as [|remaining IH]; intros j Hle; simpl; [done|].
  assert (Hagain : groq_attempts reply retries remaining = Some j →
    ∃ i, (retries - S remaining <= i < retries)%nat ∧ reply i = Answered (Some j)).
  { intros (i & Hi & Hr)%IH; [|lia]. exists i. split; [lia|done]. }
  assert (Hretry :
    (if (retries - S remaining <? retries - 1)%nat
     then groq_attempts reply retries remaining else None) = Some j →
    ∃ i, (retries - S remaining <= i < retries)%nat ∧ reply i = Answered (Some j)).
  { destruct (_ <? _)%nat; [exact Hagain|done]. }
  destruct (reply (retries - S remaining)%nat) as [[content|]|code| | |] eqn:Hr;
    try exact Hretry.
  - intros [= ->]. exists (retries - S remaining)%nat. split; [lia|done].
  - repeat match goal with |- context [if ?b then _ else _] => destruct b end;
      first [exact Hagain | exact Hretry | done].
Qed.

Lemma call_groq_llm_answer reply j :
  call_groq_llm reply = Some j →
  ∃ i, (i < 3)%nat ∧ reply i = Answered (Some j).
Proof.
  intros (i & Hi & Hr)%groq_attempts_answer; [|lia]. exists i. split; [lia|done].
Qed.

Lemma call_groq_llm_first reply j :
  reply 0%nat = Answered (Some j) → call_groq_llm reply = Some j.
Proof. intros H. unfold call_groq_llm. simpl. by rewrite H. Qed.

Lemma call_groq_llm_none reply :
  (∀ i j, (i < 3)%nat → reply i ≠ Answered (Some j)) → call_groq_llm reply = None.
Proof.
  intros H. destruct (call_groq_llm reply) as [j|] eqn:E; [|done].
  apply call_groq_llm_answer in E as (i & Hi & Hr). by destruct (H i j Hi).
Qed.

Section profile_facts.

Variable re_findall : regex → string → list string.
Variable set_order : list string → list string.

(** C2, as the specification words it, fails: an answer that parses is
    returned as it is, whatever its keys. *)
Lemma off_contract_answer_is_accepted :
  match off_contract_answer with
  | JObj members => map fst members ≠ llm_keys
  | _ => False
  end
  ∧ llm_research_agent insertion_order (λ _, Answered (Some off_contract_answer))
      "Acme" no_evidence
    = FromModel off_contract_answer.
Proof. split; [by vm_compute|reflexivity]. Qed.

(** C2 (amended): the answer of the language model is checked for being
    parseable JSON only.  When no attempt yields a parseable answer, the
    engine returns the fallback heuristic's result instead of an error;
    a parseable answer is returned as it is, whatever its key set. *)
Theorem llm_answer_checked_for_syntax_only reply n sd :
  ((∀ i j, (i < 3)%nat → reply i ≠ Answered (Some j)) →
   llm_research_agent set_order reply n sd
   = FromFallback (enhanced_fallback_analysis set_order n sd))
  ∧ (∀ j, reply 0%nat = Answered (Some j) →
       llm_research_agent set_order reply n sd = FromModel j)
  ∧ (∀ j, llm_research_agent set_order reply n sd = FromModel j →
       ∃ i, (i < 3)%nat ∧ reply i = Answered (Some j))
  ∧ (∀ d, llm_research_agent set_order reply n sd = FromFallback d →
       d = enhanced_fallback_analysis set_order n sd
       ∧ call_groq_llm reply = None).
Proof.
  unfold llm_research_agent. split; [|split; [|split]].
  - intros H. by rewrite (call_groq_llm_none reply H).
  - intros j H. by rewrite (call_groq_llm_first reply j H).
  - intros j. destruct (call_groq_llm reply) as [j'|] eqn:E; [|done].
    intros [= ->]. by apply call_groq_llm_answer.
  - intros d. destruct (call_groq_llm reply); [done|]. by intros [= <-].
Qed.

End profile_facts.

Lemma llm_answer_checked_for_syntax_only_witness :
  (∀ i j, (i < 3)%nat → (λ _ : nat, Timeout) i ≠ Answered (Some j))
  ∧ llm_research_agent insertion_order (λ _, Timeout) "Acme" no_evidence
    = FromFallback (enhanced_fallback_analysis insertion_order "Acme" no_evidence).
Proof.
  split; [done|].
  apply (proj1 (llm_answer_checked_for_syntax_only insertion_order (λ _, Timeout)
                  "Acme" no_evidence)).
  done.
Defined.

(** ** Evidence gathering *)






(** ** Profile assembly *)

Lemma update_with_json_completes p q j :
  is_Some (update_with_json p j) → is_Some (update_with_json q j).
Proof.
  destruct j as [|b|l|s|items|members]; simpl; try done.
  - by destruct s.
  - destruct (mapM binding_of_item items); simpl; [eauto|done].
Qed.

Section profile_build_facts.

Variable re_findall : regex → string → list string.
Variable set_order : list string → list string.

Lemma is_Some_bind_Some {A B} (f : A → B) (o : option A) :
  is_Some (o ≫= (λ x, Some (f x))) ↔ is_Some o.
Proof.
  destruct o; simpl.
  - split; intros _; eexists; reflexivity.
  - split; intros [? [=]].
Qed.

(** Whether the build completes is decided by the answer of the language
    model alone. *)
Lemma research_completes env n info :
  is_Some (research_single_company re_findall set_order env n info)
  ↔ (∀ j, call_groq_llm (reply env) = Some j → is_Some (update_with_json ∅ j)).
Proof.
  unfold research_single_company. cbv zeta.
  rewrite is_Some_bind_Some. unfold llm_research_agent.
  destruct (call_groq_llm (reply env)) as [j|].
  - split.
    + intros H j' [= <-]. revert H. apply update_with_json_completes.
    + intros H. apply (update_with_json_completes ∅), H. done.
  - split; [done|eauto].
Qed.


End profile_build_facts.


(** * Further properties *)

(** ** Deduplication, continued *)

Lemma first_occurrences_fixed earlier l :
  NoDup (dedup_key <$> l) →
  Forall (λ c, (dedup_key c ∉ earlier) ∧ (2 < String.length (dedup_key c))%nat) l →
  first_occurrences earlier l = l.
Proof.
  revert earlier. induction l as [|c l IH]; intros earlier Hnd Hall; [done|].
  apply NoDup_cons in Hnd as [Hc Hnd]. apply Forall_cons in Hall as [[Hfresh Hlen] Hall].
  simpl. fold (dedup_key c).
  rewrite bool_decide_eq_true_2 by done.
  apply Nat.ltb_lt in Hlen. rewrite Hlen. simpl. f_equal.
  apply IH; [done|].
  apply Forall_forall. intros d Hd.
  rewrite Forall_forall in Hall. destruct (Hall d Hd) as [Hd1 Hd2].
  split; [|done]. rewrite not_elem_of_cons. split; [|done].
  intros Heq. apply Hc. rewrite <- Heq. by apply list_elem_of_fmap_2.
Qed.

Lemma first_occurrences_keys earlier cs k :
  k ∈ dedup_key <$> first_occurrences earlier cs
  ↔ k ∈ dedup_key <$> cs ∧ (2 < String.length k)%nat ∧ (k ∉ earlier).
Proof.
  revert earlier. induction cs as [|c cs IH]; intros earlier; simpl.
  - rewrite elem_of_nil. tauto.
  - fold (dedup_key c). rewrite fmap_app, elem_of_app, IH, !elem_of_cons.
    assert (Hhead :
      k ∈ dedup_key <$>
        (if bool_decide (dedup_key c ∉ earlier)
            && (2 <? String.length (dedup_key c))%nat then [c] else [])
      ↔ k = dedup_key c ∧ (dedup_key c ∉ earlier)
        ∧ (2 < String.length (dedup_key c))%nat).
    { case_bool_decide as Hin; simpl.
      - destruct (2 <? String.length (dedup_key c))%nat eqn:Hlen; simpl.
        + apply Nat.ltb_lt in Hlen. rewrite list_elem_of_singleton. tauto.
        + apply Nat.ltb_ge in Hlen. rewrite elem_of_nil. lia.
      - rewrite elem_of_nil. tauto. }
    rewrite Hhead. clear Hhead.
    destruct (decide (k = dedup_key c)) as [->|Hne]; tauto.
Qed.

Lemma first_occurrences_app earlier a b :
  first_occurrences earlier (a ++ b)
  = first_occurrences earlier a
    ++ first_occurrences (rev (dedup_key <$> a) ++ earlier) b.
Proof.
  revert earlier. induction a as [|c a IH]; intros earlier; simpl; [done|].
  rewrite IH, <- !app_assoc. do 2 f_equal.
Qed.

(** X2: deduplicating twice changes nothing more: the output of
    [deduplicate_companies] is left as it is by a second pass. *)
Theorem deduplicate_idempotent cs :
  deduplicate_companies (deduplicate_companies cs) = deduplicate_companies cs.
Proof.
  rewrite (deduplicate_first_occurrences (deduplicate_companies cs)).
  apply first_occurrences_fixed.
  - rewrite deduplicate_first_occurrences. apply first_occurrences_NoDup.
  - apply Forall_forall. intros c Hc.
    rewrite deduplicate_first_occurrences in Hc.
    apply first_occurrences_fresh in Hc as [_ Hlen].
    split; [apply not_elem_of_nil|done].
Qed.

(** X3: the normalized names of the output are exactly the normalized
    names of the input that are longer than two characters: no other
    name is lost, none is invented. *)
Theorem deduplicate_keeps_every_long_key cs k :
  k ∈ dedup_key <$> deduplicate_companies cs
  ↔ k ∈ dedup_key <$> cs ∧ (2 < String.length k)%nat.
Proof.
  rewrite deduplicate_first_occurrences, first_occurrences_keys.
  split; [intros (?&?&?); auto|]. intros [??]. split; [done|]. split; [done|].
  apply not_elem_of_nil.
Qed.

(** X4: candidates found later never displace those found earlier: the
    deduplicated list of [cs1] is the beginning of the deduplicated list
    of [cs1 ++ cs2], and what follows is taken from [cs2] in order. *)
Theorem deduplicate_earlier_sources_win cs1 cs2 :
  ∃ rest,
    deduplicate_companies (cs1 ++ cs2) = deduplicate_companies cs1 ++ rest
    ∧ sublist rest cs2
    ∧ (∀ c, c ∈ rest → dedup_key c ∉ dedup_key <$> cs1).
Proof.
  exists (first_occurrences (rev (dedup_key <$> cs1) ++ []) cs2).
  split; [|split].
  - rewrite !deduplicate_first_occurrences. apply first_occurrences_app.
  - apply first_occurrences_sublist.
  - intros c Hc. apply first_occurrences_fresh in Hc as [Hc _].
    intros Hin. apply Hc. rewrite app_nil_r.
    apply list_elem_of_In. rewrite <- in_rev. by apply list_elem_of_In.
Qed.

(** ** Classification, continued *)

(** What one iteration of [classify_companies] writes. *)
Lemma classify_company_inv c c' :
  classify_company c = Some c' →
  ∃ descr,
    description_lower c = Some descr
    ∧ let tier := classify_relevance (Py.lower (name c) +:+ descr) in
      let score :=
        tier.2 + bonus (Py.isin "API" (default EmptyString (source c)))
        + bonus (100 <? default 0 (github_stars c)) + bonus (50 <? default 0 (votes c)) in
      confidence_score c = Some score
      ∧ c' = mkCompany (name c) (source c) (category c) (confidence_level score)
               (description c) (github_stars c) (votes c) (Some tier.1).
Proof.
  unfold classify_company, confidence_score.
  destruct (description_lower c) as [descr|]; [|done]. simpl.
  intros [= <-]. exists descr. split; [done|]. simpl.
  assert (Hscore : ∀ (b1 b2 b3 : bool) (base : Z),
    (if b3 then (if b2 then (if b1 then 0 + base + 1 else 0 + base) + 1
                 else if b1 then 0 + base + 1 else 0 + base) + 1
     else if b2 then (if b1 then 0 + base + 1 else 0 + base) + 1
          else if b1 then 0 + base + 1 else 0 + base)
    = base + bonus b1 + bonus b2 + bonus b3).
  { intros [] [] [] base; unfold bonus; lia. }
  rewrite Hscore. done.
Qed.

(** X5: classification reads neither the confidence nor the relevance a
    candidate already has, so the confidence given at discovery is
    discarded, and classifying a classified candidate again changes
    nothing. *)
Theorem classify_discards_prior_labels :
  (∀ n s cat conf d gs v rel conf' rel',
     classify_company (mkCompany n s cat conf d gs v rel)
     = classify_company (mkCompany n s cat conf' d gs v rel'))
  ∧ (∀ c c', classify_company c = Some c' → classify_company c' = Some c').
Proof.
  assert (H : ∀ n s cat conf d gs v rel conf' rel',
     classify_company (mkCompany n s cat conf d gs v rel)
     = classify_company (mkCompany n s cat conf' d gs v rel')) by done.
  split; [exact H|].
  intros c c' Hc. pose proof Hc as Hc'.
  apply classify_company_inv in Hc' as (descr & _ & _ & ->).
  destruct c as [n s cat conf d gs v rel]. simpl.
  rewrite (H n s cat _ d gs v _ conf rel). exact Hc.
Qed.

Lemma classify_discards_prior_labels_witness :
  classify_company starred_api_candidate
  = Some (mkCompany "LexBot" (Some "GitHub API") "legal_tech_github" "very_high"
            (Val "Legal assistant for tenants") (Some 150) None (Some "direct"))
  ∧ classify_company
      (mkCompany "LexBot" (Some "GitHub API") "legal_tech_github" "very_high"
         (Val "Legal assistant for tenants") (Some 150) None (Some "direct"))
    = Some (mkCompany "LexBot" (Some "GitHub API") "legal_tech_github" "very_high"
              (Val "Legal assistant for tenants") (Some 150) None (Some "direct")).
Proof.
  split; [reflexivity|].
  apply (proj2 classify_discards_prior_labels starred_api_candidate). reflexivity.
Defined.

(** X6: the score lies between 1 and 6; a direct candidate is rated
    "high" or "very_high", an indirect one is never rated "low", and
    "low" is given exactly to the peripheral candidates without any
    bonus. *)
Theorem confidence_bounds_by_tier c c' :
  classify_company c = Some c' →
  (∃ score, confidence_score c = Some score ∧ 1 <= score <= 6)
  ∧ (relevance c' = Some "direct" →
     confidence c' = "high" ∨ confidence c' = "very_high")
  ∧ (relevance c' = Some "indirect" → confidence c' ≠ "low")
  ∧ (confidence c' = "low" ↔
     relevance c' = Some "peripheral"
     ∧ Py.isin "API" (default EmptyString (source c)) = false
     ∧ (100 <? default 0 (github_stars c)) = false
     ∧ (50 <? default 0 (votes c)) = false).
Proof.
  intros (descr & _ & Hscore & ->)%classify_company_inv. simpl in *.
  set (b1 := Py.isin "API" (default EmptyString (source c))) in *.
  set (b2 := 100 <? default 0 (github_stars c)) in *.
  set (b3 := 50 <? default 0 (votes c)) in *.
  rewrite Hscore. clear Hscore.
  destruct (classify_relevance_cases (Py.lower (name c) +:+ descr)) as [E|[E|E]];
    rewrite E; simpl; destruct b1, b2, b3; simpl;
    (split; [eexists; split; [reflexivity|lia]|]);
    repeat split; try (intros [=]); try discriminate; auto; intros (?&?&?&?);
    discriminate.
Qed.

Lemma confidence_bounds_by_tier_witness :
  classify_company (known_company "Clio")
  = Some (mkCompany "Clio" (Some "Startup Database") "legal_tech" "low" Missing None
            None (Some "peripheral"))
  ∧ ∃ score, confidence_score (known_company "Clio") = Some score ∧ 1 <= score <= 6.
Proof.
  split; [reflexivity|].
  apply (confidence_bounds_by_tier (known_company "Clio")
           (mkCompany "Clio" (Some "Startup Database") "legal_tech" "low" Missing None
              None (Some "peripheral"))).
  reflexivity.
Defined.

Lemma classify_company_None c :
  classify_company c = None ↔ description c = PyNone.
Proof.
  unfold classify_company, confidence_score, description_lower.
  destruct (description c); simpl; split; done.
Qed.

Lemma count_relevance_cons tier c cs :
  count_relevance tier (c :: cs)
  = ((if decide (relevance c = Some tier) then 1 else 0) + count_relevance tier cs)%nat.
Proof.
  unfold count_relevance. rewrite filter_cons. by destruct (decide _).
Qed.

(** X7: [classify_companies] fails as a whole exactly when some
    candidate has a description bound to [None]; otherwise it keeps the
    candidates, their names and their order, and every candidate gets
    one of the three relevance tiers, so the three counts of the summary
    add up to the number of candidates. *)
Theorem classify_companies_partitions cs :
  (classify_companies cs = None ↔ ∃ c, c ∈ cs ∧ description c = PyNone)
  ∧ (∀ cs', classify_companies cs = Some cs' →
       length cs' = length cs
       ∧ map name cs' = map name cs
       ∧ (count_relevance "direct" cs' + count_relevance "indirect" cs'
          + count_relevance "peripheral" cs')%nat = length cs').
Proof.
  split.
  - unfold classify_companies. induction cs as [|c cs IH]; simpl.
    + split; [done|]. intros (c & Hc & _). by apply elem_of_nil in Hc.
    + destruct (classify_company c) as [c'|] eqn:Hc; simpl.
      * destruct (mapM classify_company cs) as [cs'|]; simpl.
        -- split; [done|]. intros (d & Hd & Hnone).
           apply elem_of_cons in Hd as [->|Hd].
           ++ apply classify_company_None in Hnone. congruence.
           ++ assert (Hex : ∃ c0, c0 ∈ cs ∧ description c0 = PyNone) by eauto.
              by apply IH in Hex.
        -- split; [|done]. intros _.
           destruct (proj1 IH eq_refl) as (d & Hd & Hnone).
           exists d. split; [by right|done].
      * split; [|done]. intros _. exists c. split; [by left|].
        by apply classify_company_None.
  - intros cs' H. unfold classify_companies in H. apply mapM_Some in H.
    induction H as [|c c' cs cs' Hc _ IH]; [done|].
    destruct IH as (IH1 & IH2 & IH3).
    apply classify_company_inv in Hc as (descr & _ & _ & ->).
    split; [simpl; by rewrite IH1|]. split; [simpl; by rewrite IH2|].
    rewrite !count_relevance_cons. simpl length. rewrite <- IH3. simpl relevance.
    destruct (classify_relevance_cases (Py.lower (name c) +:+ descr)) as [E|[E|E]];
      rewrite E; simpl;
      repeat (destruct (decide _) as [[=]|?]; try done); lia.
Qed.

Lemma classify_companies_partitions_witness :
  classify_companies [known_company "Clio"; starred_api_candidate] ≠ None
  ∧ (count_relevance "direct"
       (default [] (classify_companies [known_company "Clio"; starred_api_candidate]))
     = 1)%nat.
Proof.
  split; [|reflexivity].
  intros H.
  apply (proj1 (classify_companies_partitions
                  [known_company "Clio"; starred_api_candidate])) in H
    as (c & Hc & Hd).
  apply elem_of_cons in Hc as [->|Hc]; [discriminate Hd|].
  apply list_elem_of_singleton in Hc as ->. discriminate Hd.
Defined.

(** ** Name validity and name matching *)

Lemma str_map_length f s : String.length (Py.str_map f s) = String.length s.
Proof. induction s as [|c s IH]; simpl; [done|]. by rewrite IH. Qed.

Lemma truthy_length s : Py.truthy s = negb (String.length s =? 0)%nat.
Proof. by destruct s. Qed.

(** X8: [is_valid_legal_tech_company] accepts no name shorter than
    three characters, and names that differ only in the case of their
    letters are accepted or rejected alike. *)
Theorem name_validity_ignores_case x y :
  Py.lower x = Py.lower y →
  is_valid_legal_tech_company x = is_valid_legal_tech_company y
  ∧ (is_valid_legal_tech_company x = true → (3 <= String.length x)%nat).
Proof.
  intros H. unfold is_valid_legal_tech_company.
  assert (Hlen : String.length x = String.length y).
  { rewrite <- (str_map_length Py.lower_char x), <- (str_map_length Py.lower_char y).
    unfold Py.lower in H. by rewrite H. }
  rewrite !truthy_length, H, Hlen. split; [done|].
  destruct (String.length y <? 3)%nat eqn:E; [by rewrite orb_true_r|].
  intros _. apply Nat.ltb_ge in E. lia.
Qed.

Lemma name_validity_ignores_case_witness :
  Py.lower "LEGAL" = Py.lower "legal"
  ∧ is_valid_legal_tech_company "LEGAL" = is_valid_legal_tech_company "legal".
Proof.
  split; [reflexivity|].
  apply (name_validity_ignores_case "LEGAL" "legal"). reflexivity.
Defined.

Lemma is_ascii_alnum_lowered c :
  is_ascii_alnum (Py.lower_char c) = true → Py.is_lowered (Py.lower_char c) = true.
Proof. intros _. apply is_lowered_lower. Qed.

Lemma str_all_filter_keeps p q s :
  Py.str_all p s = true → Py.str_all p (Py.str_filter q s) = true.
Proof.
  induction s as [|c s IH]; simpl; [done|].
  intros [Hc Hs]%andb_true_iff. destruct (q c); simpl; [by rewrite Hc, IH|auto].
Qed.

Lemma clean_name_idempotent x : clean_name (clean_name x) = clean_name x.
Proof.
  unfold clean_name.
  rewrite (lower_id (Py.str_filter is_ascii_alnum (Py.lower x))).
  - apply str_filter_all, str_all_filter.
  - apply str_all_filter_keeps, str_all_lower_lowered.
Qed.

Lemma isin_empty s : Py.isin EmptyString s = true.
Proof. rewrite isin_unfold. by destruct s. Qed.

Lemma isin_refl s : Py.isin s s = true.
Proof.
  rewrite isin_unfold. apply orb_true_iff. left.
  induction s as [|c s IH]; simpl; [done|]. by destruct (ascii_dec c c).
Qed.

(** X9: [is_company_match] is reflexive and symmetric, and it reads the
    two names only through their cleaned forms: case, blanks and
    punctuation never matter. *)
Theorem company_match_symmetric a b :
  is_company_match a a = true
  ∧ is_company_match a b = is_company_match b a
  ∧ is_company_match a b = is_company_match (clean_name a) (clean_name b).
Proof.
  unfold is_company_match. split; [|split].
  - by rewrite isin_refl.
  - rewrite (orb_comm (Py.isin (clean_name a) (clean_name b))).
    f_equal. f_equal. lia.
  - by rewrite !clean_name_idempotent.
Qed.

(** X10: the length tolerance makes unrelated names match: two names
    whose cleaned forms differ in length by at most three always match,
    and a found name without any ASCII letter or digit matches every
    search name. *)
Theorem company_match_tolerance a b :
  (Z.abs (Z.of_nat (String.length (clean_name a))
          - Z.of_nat (String.length (clean_name b))) <= 3 →
   is_company_match a b = true)
  ∧ (clean_name b = EmptyString → is_company_match a b = true).
Proof.
  unfold is_company_match. split.
  - intros H. apply Z.leb_le in H. rewrite H. apply orb_true_r.
  - intros ->. by rewrite isin_empty, orb_true_r.
Qed.

Lemma company_match_tolerance_witness :
  Z.abs (Z.of_nat (String.length (clean_name "Abel"))
         - Z.of_nat (String.length (clean_name "Kira Systems"))) > 3
  ∧ Z.abs (Z.of_nat (String.length (clean_name "Abel"))
           - Z.of_nat (String.length (clean_name "Clio Inc."))) <= 3
  ∧ is_company_match "Abel" "Clio Inc." = true.
Proof.
  split; [by vm_compute|]. split; [by vm_compute|].
  apply (proj1 (company_match_tolerance "Abel" "Clio Inc.")). by vm_compute.
Defined.

(** ** The retry loop of the language-model call *)

Lemma groq_attempts_step reply retries r :
  (S r <= retries)%nat →
  groq_attempts reply retries (S r)
  = attempt_then (reply (retries - S r)%nat) (groq_attempts reply retries r).
Proof.
  intros Hle. simpl.
  assert (Hretry :
    (if (retries - S r <? retries - 1)%nat then groq_attempts reply retries r else None)
    = groq_attempts reply retries r).
  { destruct (Nat.ltb_spec (retries - S r) (retries - 1)); [done|].
    destruct r; [done|lia]. }
  rewrite Hretry. unfold attempt_then.
  destruct (reply (retries - S r)%nat) as [[content|]|code| | |]; try done.
  simpl. destruct (code =? 200); [done|]. destruct (code =? 429); [done|]. simpl.
  destruct (code =? 401) eqn:E; [|done].
  apply Z.eqb_eq in E as ->. done.
Qed.

Lemma call_groq_llm_steps reply :
  call_groq_llm reply
  = attempt_then (reply 0%nat)
      (attempt_then (reply 1%nat) (attempt_then (reply 2%nat) None)).
Proof.
  unfold call_groq_llm.
  by rewrite (groq_attempts_step reply 3 2), (groq_attempts_step reply 3 1),
    (groq_attempts_step reply 3 0) by lia.
Qed.

Lemma attempt_then_retried a later : retried a = true → attempt_then a later = later.
Proof. destruct a as [[?|]|?| | |]; simpl; try done. by intros ->. Qed.

Lemma attempt_then_stops a later :
  retried a = false → (∀ content, a ≠ Answered (Some content)) →
  attempt_then a later = None.
Proof.
  destruct a as [[j|]|?| | |]; simpl; try done.
  - intros _ Hn. by destruct (Hn j).
  - by intros ->.
Qed.

(** X11: [call_groq_llm] makes at most three attempts: its result
    depends on the first three replies only. *)
Theorem groq_call_is_bounded reply reply' :
  (∀ i, (i < 3)%nat → reply i = reply' i) →
  call_groq_llm reply = call_groq_llm reply'.
Proof.
  intros H. rewrite !call_groq_llm_steps.
  by rewrite <- (H 0%nat), <- (H 1%nat), <- (H 2%nat) by lia.
Qed.

Lemma groq_call_is_bounded_witness :
  (∀ i, (i < 3)%nat →
     (λ i : nat, if (i <? 3)%nat then Timeout else Answered (Some JNull)) i
     = (λ _ : nat, Timeout) i)
  ∧ call_groq_llm (λ i, if (i <? 3)%nat then Timeout else Answered (Some JNull))
    = call_groq_llm (λ _, Timeout).
Proof.
  assert (H : ∀ i, (i < 3)%nat →
     (λ i : nat, if (i <? 3)%nat then Timeout else Answered (Some JNull)) i
     = (λ _ : nat, Timeout) i).
  { intros i Hi. simpl. apply Nat.ltb_lt in Hi. by rewrite Hi. }
  split; [exact H|].
  exact (groq_call_is_bounded _ _ H).
Defined.

(** X12: the first parseable answer wins when every attempt before it
    is one the loop retries (unparseable content, a timeout or
    connection error, status 429 or a server error); an authentication
    error or another client error ends the call at once with no result,
    as do three retried attempts. *)
Theorem groq_call_retries_then_answers reply i :
  (i < 3)%nat →
  (∀ k, (k < i)%nat → retried (reply k) = true) →
  (∀ content, reply i = Answered (Some content) → call_groq_llm reply = Some content)
  ∧ (retried (reply i) = false → (∀ content, reply i ≠ Answered (Some content)) →
     call_groq_llm reply = None)
  ∧ (i = 2%nat → retried (reply i) = true → call_groq_llm reply = None).
Proof.
  intros Hi Hbefore. rewrite call_groq_llm_steps.
  destruct i as [|[|[|i]]]; [| | |lia].
  - split; [by intros content ->|]. split; [|done].
    intros Ha Hn. by apply attempt_then_stops.
  - rewrite (attempt_then_retried (reply 0%nat)) by (apply Hbefore; lia).
    split; [by intros content ->|]. split; [|done].
    intros Ha Hn. by apply attempt_then_stops.
  - rewrite (attempt_then_retried (reply 0%nat)) by (apply Hbefore; lia).
    rewrite (attempt_then_retried (reply 1%nat)) by (apply Hbefore; lia).
    split; [by intros content ->|]. split.
    + intros Ha Hn. by apply attempt_then_stops.
    + intros _ Ha. by apply attempt_then_retried.
Qed.

Lemma groq_call_retries_then_answers_witness :
  (1 < 3)%nat
  ∧ retried ((λ i : nat, if (i =? 0)%nat then Status 503 else Answered (Some JNull)) 0%nat)
    = true
  ∧ call_groq_llm (λ i, if (i =? 0)%nat then Status 503 else Answered (Some JNull))
    = Some JNull.
Proof.
  split; [lia|]. split; [reflexivity|].
  apply (proj1 (groq_call_retries_then_answers
                  (λ i, if (i =? 0)%nat then Status 503 else Answered (Some JNull))
                  1%nat ltac:(lia)
                  ltac:(intros [|k] Hk; [reflexivity|lia]))).
  reflexivity.
Defined.

(** ** The compiled search text *)

Lemma str_length_app a b :
  String.length (a +:+ b) = (String.length a + String.length b)%nat.
Proof. induction a as [|c a IH]; simpl; [done|]. by rewrite IH. Qed.

Lemma take_length n s : (String.length (Py.take n s) <= n)%nat.
Proof.
  revert s. induction n as [|n IH]; intros s; simpl; [lia|].
  destruct s as [|c s]; simpl; [lia|]. specialize (IH s). lia.
Qed.

Lemma fold_take_length {A} (f : A → string) k l acc :
  (String.length (fold_left (λ acc x, acc +:+ Py.take k (f x)) l acc)
   <= String.length acc + k * length l)%nat.
Proof.
  revert acc. induction l as [|x l IH]; intros acc; simpl; [lia|].
  etrans; [apply IH|]. rewrite str_length_app.
  pose proof (take_length k (f x)). lia.
Qed.

Lemma web_search_agent_text src :
  ∃ text,
    SearchData.search_results (web_search_agent src)
    = fold_left (λ acc discussion,
                   acc +:+ Py.take 300 (" " +:+ discussion_text discussion))
        (firstn 2 (SearchData.tech_mentions (web_search_agent src)))
        (fold_left (λ acc article, acc +:+ Py.take 500 (" " +:+ article_text article))
           (firstn 3 (SearchData.news_mentions (web_search_agent src)))
           (if Py.truthy text then EmptyString +:+ Py.take 1000 text else EmptyString)).
Proof.
  unfold web_search_agent.
  destruct (duckduckgo_search src) as [hit|];
    [destruct (negb (Py.truthy (WebHit.website hit))
               && negb (Py.truthy (WebHit.search_results hit))) eqn:E|];
    destruct (google_scraping_fallback src) as [fallback|];
    cbv beta iota zeta; rewrite ?E; eexists; reflexivity.
Qed.

(** X13: the search text that [web_search_agent] compiles is bounded:
    at most 1000 characters of search text, 500 for each of at most
    three news items and 300 for each of at most two discussions, 3100
    in all, whatever the adapters returned. *)
Theorem compiled_search_text_is_bounded src :
  (String.length (SearchData.search_results (web_search_agent src)) <= 3100)%nat.
Proof.
  destruct (web_search_agent_text src) as [text ->].
  etrans; [apply (fold_take_length (λ d, " " +:+ discussion_text d))|].
  etrans; [apply Nat.add_le_mono_r,
             (fold_take_length (λ a, " " +:+ article_text a))|].
  assert (H1 : (String.length (if Py.truthy text
                               then EmptyString +:+ Py.take 1000 text
                               else EmptyString) <= 1000)%nat).
  { destruct (Py.truthy text); [apply take_length|simpl; lia]. }
  pose proof (firstn_le_length 3 (SearchData.news_mentions (web_search_agent src))).
  pose proof (firstn_le_length 2 (SearchData.tech_mentions (web_search_agent src))).
  lia.
Qed.

(** X14: the scraping fallback is consulted only when the web search
    found neither a website nor any text: otherwise the evidence is the
    same whatever the fallback would have returned or raised. *)
Theorem scraping_fallback_only_when_empty src hit other :
  duckduckgo_search src = Returned hit →
  Py.truthy (WebHit.website hit) || Py.truthy (WebHit.search_results hit) = true →
  web_search_agent
    (mkSources (duckduckgo_search src) (google_news_search src)
       (hacker_news_search src) (opencorporates_search src) (github_search src) other)
  = web_search_agent src.
Proof.
  intros Hd Ht. unfold web_search_agent. simpl. rewrite Hd.
  destruct (Py.truthy (WebHit.website hit)), (Py.truthy (WebHit.search_results hit));
    done.
Qed.

Lemma scraping_fallback_only_when_empty_witness :
  web_search_agent
    (mkSources (Returned (WebHit.mk "https://acme.example" "")) Raised Raised Raised
       Raised (Returned (WebHit.mk "https://other.example" "scraped")))
  = web_search_agent
      (mkSources (Returned (WebHit.mk "https://acme.example" "")) Raised Raised Raised
         Raised Raised).
Proof.
  apply (scraping_fallback_only_when_empty
           (mkSources (Returned (WebHit.mk "https://acme.example" "")) Raised Raised
              Raised Raised Raised)
           (WebHit.mk "https://acme.example" "")
           (Returned (WebHit.mk "https://other.example" "scraped")));
    reflexivity.
Defined.

(** ** The funding agent *)

Lemma isin_seed_in_pre_seed text :
  Py.isin "pre-seed" text = true → Py.isin "seed" text = true.
Proof. apply (isin_trans "seed" "pre-seed" text). reflexivity. Qed.

Lemma funding_step_values funding_data fetched :
  funding_data.1 ∈ fundraising_stages → funding_data.2 ∈ funding_stages →
  (funding_step funding_data fetched).1 ∈ fundraising_stages
  ∧ (funding_step funding_data fetched).2 ∈ funding_stages.
Proof.
  intros H1 H2. unfold funding_step. destruct fetched as [text|]; [|done].
  destruct (Py.isin "series a" _); [split; simpl; repeat constructor|].
  destruct (Py.isin "series b" _); [split; simpl; repeat constructor|].
  destruct (Py.isin "series c" _); [split; simpl; repeat constructor|].
  destruct (Py.isin "seed" (Py.lower text)) eqn:Hseed; [split; simpl; repeat constructor|].
  destruct (Py.isin "pre-seed" (Py.lower text)) eqn:Hpre; [|done].
  apply isin_seed_in_pre_seed in Hpre. congruence.
Qed.

Lemma funding_agent_form google n :
  ∃ fundraising stage,
    funding_research_agent google n
    = <["fundraising_stage" := fundraising]> (<["stage" := stage]> ∅)
    ∧ fundraising ∈ fundraising_stages
    ∧ stage ∈ funding_stages
    ∧ fundraising ≠ "Pre-seed".
Proof.
  unfold funding_research_agent.
  set (queries := [_; _; _]).
  assert (H : ∀ qs start,
    start.1 ∈ fundraising_stages → start.2 ∈ funding_stages →
    (fold_left (λ fd q, funding_step fd (google q)) qs start).1 ∈ fundraising_stages
    ∧ (fold_left (λ fd q, funding_step fd (google q)) qs start).2 ∈ funding_stages).
  { induction qs as [|q qs IH]; intros start H1 H2; simpl; [done|].
    apply IH; by apply funding_step_values. }
  destruct (H queries ("Unknown", "Unknown")) as [H1 H2];
    [simpl; repeat constructor..|].
  set (result := fold_left _ queries _) in *.
  exists result.1, result.2. split; [reflexivity|]. split; [done|]. split; [done|].
  intros Heq. rewrite Heq in H1. unfold fundraising_stages in H1.
  repeat (apply elem_of_cons in H1 as [H1|H1]; [discriminate|]).
  by apply elem_of_nil in H1.
Qed.

(** X15: [funding_research_agent] returns exactly the two keys
    [fundraising_stage] and [stage]; the stage is one of Unknown, Growth,
    Established, Startup and the fundraising stage one of Unknown,
    Series A, Series B, Series C, Seed.  It is never "Pre-seed": a text
    with "pre-seed" contains "seed", which is tested first. *)
Theorem funding_agent_values google n :
  ∃ fundraising stage,
    funding_research_agent google n
    = <["fundraising_stage" := fundraising]> (<["stage" := stage]> ∅)
    ∧ fundraising ∈ fundraising_stages
    ∧ stage ∈ funding_stages
    ∧ fundraising ≠ "Pre-seed".
Proof. apply funding_agent_form. Qed.

(** X16: a later query overrides an earlier one: when the page of the
    last funding query names a series or a seed round, that page alone
    decides both attributes. *)
Theorem funding_agent_last_page_wins google n text :
  google (n +:+ " valuation startup funding") = Some text →
  Py.isin "series a" (Py.lower text) || Py.isin "series b" (Py.lower text)
  || Py.isin "series c" (Py.lower text) || Py.isin "seed" (Py.lower text) = true →
  funding_research_agent google n
  = <["fundraising_stage" := (funding_step ("Unknown", "Unknown") (Some text)).1]>
      (<["stage" := (funding_step ("Unknown", "Unknown") (Some text)).2]> ∅).
Proof.
  intros Hpage Hhit. unfold funding_research_agent. cbn [fold_left]. rewrite Hpage.
  set (before := funding_step (funding_step ("Unknown", "Unknown") _) _).
  assert (H : ∀ fd, funding_step fd (Some text)
                    = funding_step ("Unknown", "Unknown") (Some text)).
  { intros fd. unfold funding_step.
    destruct (Py.isin "series a" _); [done|].
    destruct (Py.isin "series b" _); [done|].
    destruct (Py.isin "series c" _); [done|].
    destruct (Py.isin "seed" _); [done|]. done. }
  by rewrite (H before).
Qed.

Lemma funding_agent_last_page_wins_witness :
  funding_research_agent
    (λ q, if String.eqb q "Acme valuation startup funding"
          then Some "Acme closes Series B" else Some "Acme seed round") "Acme"
  = <["fundraising_stage" := "Series B"]> (<["stage" := "Growth"]> ∅).
Proof.
  apply (funding_agent_last_page_wins
           (λ q, if String.eqb q "Acme valuation startup funding"
                 then Some "Acme closes Series B" else Some "Acme seed round")
           "Acme" "Acme closes Series B"); reflexivity.
Defined.

(** ** Profiles *)

#[local] Set Warnings "-clear-no-such-hyp".

Lemma lookup_two {V} (k1 k2 : string) (v1 v2 : V) key :
  (<[k1 := v1]> (<[k2 := v2]> (∅ : gmap string V))) !! key
  = if decide (k1 = key) then Some v1 else if decide (k2 = key) then Some v2 else None.
Proof. by rewrite !lookup_insert, lookup_empty. Qed.

Lemma dom_dict_update {V} (d other : gmap string V) :
  dom (dict_update d other) = dom other ∪ dom d.
Proof. unfold dict_update. apply dom_union_L. Qed.

Lemma dom_as_json d : dom (as_json d) = dom d.
Proof. unfold as_json. apply dom_fmap_L. Qed.

Lemma dict_update_lookup_other {V} (d other : gmap string V) key :
  key ∉ dom other → dict_update d other !! key = d !! key.
Proof. intros H%not_elem_of_dom. by rewrite dict_update_lookup, H. Qed.

Lemma dict_update_lookup_new d other key v :
  other !! key = Some v → dict_update d (as_json other) !! key = Some (JStr v).
Proof. intros H. by rewrite dict_update_lookup, as_json_lookup, H. Qed.

Lemma dom_initial_profile n info time :
  dom (initial_profile n info time) = list_to_set profile_keys.
Proof.
  unfold initial_profile. rewrite !dom_insert_L, dom_list_to_map_L.
  rewrite <- list_fmap_compose. simpl. set_solver.
Qed.

Lemma dom_enhanced_fallback_analysis so n sd :
  dom (enhanced_fallback_analysis so n sd) = list_to_set llm_keys.
Proof.
  unfold enhanced_fallback_analysis. cbv zeta.
  rewrite !dom_insert_L, dom_list_to_map_L. simpl. set_solver.
Qed.

Lemma dom_funding_research_agent google n :
  dom (funding_research_agent google n) = {["fundraising_stage"; "stage"]}.
Proof.
  unfold funding_research_agent. cbv zeta. rewrite dom_list_to_map_L. simpl. set_solver.
Qed.

Section assembly_facts.

Variable re_findall : regex → string → list string.
Variable set_order : list string → list string.

Lemma dom_competition_analysis_agent google n :
  dom (competition_analysis_agent re_findall google n)
  = {["partnerships_integrations"; "user_base_growth_rate"]}.
Proof.
  unfold competition_analysis_agent. cbv zeta. rewrite dom_list_to_map_L. simpl.
  set_solver.
Qed.

Lemma dom_website_analysis_agent fetched url :
  dom (website_analysis_agent re_findall fetched url)
  = {["website"; "business_model"; "pricing"; "product"; "api_integration"]}.
Proof.
  unfold website_analysis_agent. cbv zeta. destruct fetched as [soup|].
  - repeat match goal with
           | |- context [if ?b then _ else _] => destruct b
           | |- context [match ?o with Some _ => _ | None => _ end] => destruct o
           end;
      rewrite ?dom_insert_L, dom_list_to_map_L; simpl; set_solver.
  - rewrite dom_list_to_map_L. simpl. set_solver.
Qed.

Lemma dom_profile_after_website env n info :
  dom (profile_after_website re_findall env n info) = list_to_set profile_keys.
Proof.
  unfold profile_after_website. cbv zeta.
  destruct (Py.truthy _);
    rewrite ?dom_dict_update, ?dom_as_json, ?dom_website_analysis_agent,
      dom_initial_profile; simpl; set_solver.
Qed.

Lemma dom_agents_update env n p :
  dom (agents_update re_findall env n p)
  = {["fundraising_stage"; "stage"; "partnerships_integrations";
      "user_base_growth_rate"]} ∪ dom p.
Proof.
  unfold agents_update.
  rewrite !dom_dict_update, !dom_as_json, dom_competition_analysis_agent,
    dom_funding_research_agent. set_solver.
Qed.

Lemma research_single_company_eq env n info :
  research_single_company re_findall set_order env n info
  = match llm_research_agent set_order (reply env) n (web_search_agent (adapters env)) with
    | FromModel answer =>
        update_with_json (profile_after_website re_findall env n info) answer
    | FromFallback fallback_data =>
        Some (dict_update (profile_after_website re_findall env n info)
                (as_json fallback_data))
    end ≫= λ profile, Some (agents_update re_findall env n profile).
Proof. reflexivity. Qed.

Lemma update_with_json_dom p j p' :
  update_with_json p j = Some p' → dom p ⊆ dom p'.
Proof.
  destruct j as [|b|l|s|items|members]; simpl; try done.
  - destruct s; [|done]. by intros [= <-].
  - destruct (mapM binding_of_item items) as [bindings|]; simpl; [|done].
    intros [= <-]. revert p. induction bindings as [|b bindings IH]; intros p; [done|].
    simpl. etrans; [|apply IH]. destruct b.1; [|done].
    rewrite dom_insert_L. set_solver.
  - intros [= <-]. rewrite dom_dict_update. set_solver.
Qed.

(** X17: a profile that is built has all twenty-two keys of the initial
    profile, whatever the adapters, the agents and the language model
    returned: no step removes a key. *)
Theorem profile_keeps_every_key env n info profile key :
  research_single_company re_findall set_order env n info = Some profile →
  key ∈ profile_keys → is_Some (profile !! key).
Proof.
  rewrite research_single_company_eq. intros H Hkey.
  apply elem_of_dom.
  assert (Hbase : key ∈ dom (profile_after_website re_findall env n info)).
  { rewrite dom_profile_after_website. by apply elem_of_list_to_set. }
  destruct (llm_research_agent _ _ _ _) as [answer|fallback_data].
  - destruct (update_with_json _ answer) as [p|] eqn:E; [|done].
    simpl in H. injection H as <-. rewrite dom_agents_update.
    apply update_with_json_dom in E. set_solver.
  - simpl in H. injection H as <-.
    rewrite dom_agents_update, dom_dict_update. set_solver.
Qed.

(** X18: in every profile the stage and the fundraising stage are those
    of the funding agent, whatever the language model or the fallback
    heuristic said: the stage is one of Unknown, Growth, Established,
    Startup and the fundraising stage one of Unknown, Series A, Series B,
    Series C, Seed. *)
Theorem profile_stage_is_the_funding_agents env n info profile :
  research_single_company re_findall set_order env n info = Some profile →
  profile !! "stage" = JStr <$> funding_research_agent (google env) n !! "stage"
  ∧ profile !! "fundraising_stage"
    = JStr <$> funding_research_agent (google env) n !! "fundraising_stage"
  ∧ ∃ stage fundraising,
      profile !! "stage" = Some (JStr stage) ∧ stage ∈ funding_stages
      ∧ profile !! "fundraising_stage" = Some (JStr fundraising)
      ∧ fundraising ∈ fundraising_stages.
Proof.
  rewrite research_single_company_eq. intros H.
  assert (Hp : ∃ p, profile = agents_update re_findall env n p).
  { destruct (llm_research_agent _ _ _ _) as [answer|fallback_data].
    - destruct (update_with_json _ answer) as [p|]; [|done]. simpl in H.
      injection H as <-. eauto.
    - simpl in H. injection H as <-. eauto. }
  destruct Hp as [p ->]. clear H.
  destruct (funding_agent_form (google env) n) as (f & s & Hf & Hfin & Hsin & _).
  assert (H1 : agents_update re_findall env n p !! "stage"
               = JStr <$> funding_research_agent (google env) n !! "stage").
  { unfold agents_update.
    rewrite dict_update_lookup_other
      by (rewrite dom_as_json, dom_competition_analysis_agent; set_solver).
    rewrite dict_update_lookup, as_json_lookup, Hf, lookup_two. by simpl. }
  assert (H2 : agents_update re_findall env n p !! "fundraising_stage"
               = JStr <$> funding_research_agent (google env) n !! "fundraising_stage").
  { unfold agents_update.
    rewrite dict_update_lookup_other
      by (rewrite dom_as_json, dom_competition_analysis_agent; set_solver).
    rewrite dict_update_lookup, as_json_lookup, Hf, lookup_two. by simpl. }
  split; [done|]. split; [done|].
  exists s, f. rewrite H1, H2, Hf, !lookup_two. simpl. done.
Qed.

End assembly_facts.

Lemma offline_fallback_build_completes :
  is_Some (research_single_company no_matches insertion_order
             (offline (λ _, Timeout)) "Acme" JNull).
Proof. apply research_completes. intros j Hj. discriminate Hj. Qed.

Lemma series_b_build_completes :
  is_Some (research_single_company no_matches insertion_order series_b_run "Acme" JNull).
Proof. apply research_completes. intros j Hj. discriminate Hj. Qed.

Lemma profile_keeps_every_key_witness :
  ∃ profile,
    research_single_company no_matches insertion_order
      (offline (λ _, Timeout)) "Acme" JNull = Some profile
    ∧ is_Some (profile !! "pricing").
Proof.
  destruct offline_fallback_build_completes as [profile E].
  exists profile. split; [exact E|].
  apply (profile_keeps_every_key no_matches insertion_order
           (offline (λ _, Timeout)) "Acme" JNull profile "pricing" E).
  unfold profile_keys. simpl. repeat constructor.
Defined.

Lemma profile_stage_is_the_funding_agents_witness :
  ∃ profile,
    research_single_company no_matches insertion_order series_b_run "Acme" JNull
    = Some profile
    ∧ profile !! "stage"
      = JStr <$> funding_research_agent (google series_b_run) "Acme" !! "stage".
Proof.
  destruct series_b_build_completes as [profile E].
  exists profile. split; [exact E|].
  apply (profile_stage_is_the_funding_agents no_matches insertion_order series_b_run
           "Acme" JNull profile E).
Defined.

(** ** Values of the fallback path *)

Lemma app_nonempty a b : a ≠ EmptyString → a +:+ b ≠ EmptyString.
Proof. by destruct a. Qed.

Lemma join_nonempty sep p rest : p ≠ EmptyString → Py.join sep (p :: rest) ≠ EmptyString.
Proof. intros Hp. simpl. destruct rest; [done|]. by apply app_nonempty. Qed.

Lemma ai_capability_nonempty score : ai_capability score ≠ EmptyString.
Proof. unfold ai_capability. by repeat destruct (_ <=? _). Qed.

Lemma fallback_stage_values sd : fallback_stage sd ∈ funding_stages.
Proof.
  unfold fallback_stage. destruct (find _ _) as [article|].
  - unfold stage_of_article.
    repeat match goal with |- context [if ?b then _ else _] => destruct b end;
      simpl; repeat constructor.
  - destruct (truthy_field _ _) as [date|]; [|simpl; repeat constructor].
    unfold stage_of_incorporation. destruct (py_int _); simpl; [|repeat constructor].
    repeat match goal with |- context [if ?b then _ else _] => destruct b end;
      repeat constructor.
Qed.

Lemma fallback_stage_nonempty sd : fallback_stage sd ≠ EmptyString.
Proof.
  pose proof (fallback_stage_values sd) as H. intros Heq. rewrite Heq in H.
  unfold funding_stages in H.
  repeat (apply elem_of_cons in H as [H|H]; [discriminate|]). by apply elem_of_nil in H.
Qed.

Lemma comment_shape (parts : list string) c (f : list string → string) :
  c ≠ EmptyString →
  match parts with [] => c | _ :: _ => c +:+ f parts end ≠ EmptyString.
Proof. intros Hc. destruct parts; [done|]. by apply app_nonempty. Qed.

Lemma fallback_comment_nonempty n sd : fallback_comment n sd ≠ EmptyString.
Proof.
  unfold fallback_comment. cbv zeta.
  apply (comment_shape _ _ (λ parts, ". Additional insights: " +:+ Py.join "; " parts)).
  done.
Qed.

Lemma coverage_indicators_nonempty_values sd region :
  region ∈ coverage_indicators sd → region ≠ EmptyString.
Proof.
  unfold coverage_indicators. rewrite elem_of_app.
  destruct (jurisdiction_indicators_cases (SearchData.corporate_data sd))
    as [H|[H|[H|H]]]; rewrite H;
  destruct (text_indicators_cases (all_text sd)) as [H'|[H'|[H'|H']]]; rewrite H';
    rewrite ?elem_of_nil, ?list_elem_of_singleton; intros [Hr|Hr]; try done;
    by rewrite Hr.
Qed.

Section fallback_values.

Variable re_findall : regex → string → list string.
Variable set_order : list string → list string.

Hypothesis set_order_permutes : ∀ l, set_order l ≡ₚ l.
Hypothesis re_findall_nonempty :
  ∀ pattern text m, m ∈ re_findall pattern text → m ≠ EmptyString.

Lemma fallback_coverage_nonempty sd : fallback_coverage set_order sd ≠ EmptyString.
Proof.
  unfold fallback_coverage.
  destruct (coverage_indicators sd) as [|r rs] eqn:E; [done|].
  pose proof (set_order_permutes (distinct [] (r :: rs))) as Hperm.
  destruct (set_order (distinct [] (r :: rs))) as [|p rest] eqn:Eo.
  - symmetry in Hperm. apply Permutation_nil_r in Hperm. by simpl in Hperm.
  - apply join_nonempty. apply (coverage_indicators_nonempty_values sd).
    rewrite E. apply (distinct_elem [] (r :: rs) p). rewrite <- Hperm. by left.
Qed.

Lemma enhanced_fallback_analysis_nonempty n sd :
  all_nonempty (enhanced_fallback_analysis set_order n sd).
Proof.
  unfold all_nonempty, enhanced_fallback_analysis. cbv zeta.
  rewrite !list_to_map_cons, list_to_map_nil.
  repeat (apply map_Forall_insert_2;
          [first [ apply ai_capability_nonempty | apply fallback_stage_nonempty
                 | apply fallback_coverage_nonempty | apply fallback_comment_nonempty
                 | by apply app_nonempty | done ]|]).
  apply map_Forall_empty.
Qed.

Lemma funding_research_agent_nonempty google n :
  all_nonempty (funding_research_agent google n).
Proof.
  destruct (funding_agent_form google n) as (f & s & -> & Hf & Hs & _).
  unfold all_nonempty. repeat apply map_Forall_insert_2; [| |apply map_Forall_empty].
  - intros ->. unfold fundraising_stages in Hf.
    repeat (apply elem_of_cons in Hf as [Hf|Hf]; [discriminate|]).
    by apply elem_of_nil in Hf.
  - intros ->. unfold funding_stages in Hs.
    repeat (apply elem_of_cons in Hs as [Hs|Hs]; [discriminate|]).
    by apply elem_of_nil in Hs.
Qed.

Lemma first_matches_nonempty patterns text matches :
  first_matches re_findall patterns text = Some matches →
  ∃ m rest, matches = m :: rest ∧ m ≠ EmptyString.
Proof.
  induction patterns as [|pattern patterns IH]; simpl; [done|].
  destruct (re_findall pattern text) as [|m rest] eqn:E; [done|].
  intros [= <-]. exists m, rest. split; [done|].
  apply (re_findall_nonempty pattern text). rewrite E. by left.
Qed.

Lemma competition_step_nonempty competition_data fetched :
  competition_data.1 ≠ EmptyString → competition_data.2 ≠ EmptyString →
  (competition_step re_findall competition_data fetched).1 ≠ EmptyString
  ∧ (competition_step re_findall competition_data fetched).2 ≠ EmptyString.
Proof.
  intros H1 H2. unfold competition_step. destruct fetched as [text|]; [|done].
  cbv zeta. cbn [fst snd]. split.
  - destruct (flat_map (λ pattern, firstn 3 (re_findall pattern text))
                partnership_patterns) as [|m rest] eqn:E; [exact H1|].
    apply join_nonempty.
    assert (Hin : m ∈ flat_map (λ pattern, firstn 3 (re_findall pattern text))
                        partnership_patterns) by (rewrite E; by left).
    apply list_elem_of_In, in_flat_map in Hin as (pattern & _ & Hin).
    apply list_elem_of_In in Hin.
    apply (re_findall_nonempty pattern text).
    by apply (subseteq_take 3).
  - destruct (first_matches re_findall user_patterns text) as [matches|] eqn:E;
      [|exact H2].
    apply first_matches_nonempty in E as (m & rest & -> & Hm).
    by apply join_nonempty.
Qed.

Lemma competition_analysis_agent_nonempty google n :
  all_nonempty (competition_analysis_agent re_findall google n).
Proof.
  unfold competition_analysis_agent. cbv zeta.
  set (queries := [n +:+ _; _]).
  assert (H : ∀ qs start,
    start.1 ≠ EmptyString → start.2 ≠ EmptyString →
    (fold_left (λ cd q, competition_step re_findall cd (google q)) qs start).1
      ≠ EmptyString
    ∧ (fold_left (λ cd q, competition_step re_findall cd (google q)) qs start).2
      ≠ EmptyString).
  { induction qs as [|q qs IH]; intros start H1 H2; simpl; [done|].
    apply IH; by apply competition_step_nonempty. }
  destruct (H queries ("Unknown", "Unknown")) as [H1 H2]; [done..|].
  unfold all_nonempty. rewrite !list_to_map_cons, list_to_map_nil.
  repeat apply map_Forall_insert_2; [done|done|apply map_Forall_empty].
Qed.

End fallback_values.

Lemma all_nonempty_union a b : all_nonempty a → all_nonempty b → all_nonempty (a ∪ b).
Proof.
  unfold all_nonempty. rewrite !map_Forall_lookup. intros Ha Hb key v.
  rewrite lookup_union_Some_raw. intros [H|[_ H]]; eauto.
Qed.

Lemma as_json_dict_update d other :
  as_json (dict_update d other) = dict_update (as_json d) (as_json other).
Proof. unfold as_json, dict_update. apply map_fmap_union. Qed.

Lemma initial_profile_empty n info time key :
  key ∈ "website" :: website_keys →
  initial_profile n info time !! key = Some (JStr EmptyString).
Proof.
  unfold website_keys. rewrite !elem_of_cons, elem_of_nil.
  intros [->|[->|[->|[->|[->|[]]]]]]; reflexivity.
Qed.


Section fallback_profile.

Variable re_findall : regex → string → list string.
Variable set_order : list string → list string.

(** What the heuristic, the funding agent and the competition agent
    write on the fallback path, merged in the order of the updates. *)
Lemma fallback_profile_eq env n info :
  call_groq_llm (reply env) = None →
  research_single_company re_findall set_order env n info
  = Some (dict_update (profile_after_website re_findall env n info)
            (as_json
               (dict_update
                  (dict_update
                     (enhanced_fallback_analysis set_order n
                        (web_search_agent (adapters env)))
                     (funding_research_agent (google env) n))
                  (competition_analysis_agent re_findall (google env) n)))).
Proof.
  intros H. rewrite research_single_company_eq. unfold llm_research_agent.
  rewrite H. simpl. f_equal. unfold agents_update.
  rewrite !as_json_dict_update. unfold dict_update.
  by rewrite !(assoc_L (∪)).
Qed.

Lemma dom_fallback_writes env n :
  dom (dict_update
         (dict_update
            (enhanced_fallback_analysis set_order n (web_search_agent (adapters env)))
            (funding_research_agent (google env) n))
         (competition_analysis_agent re_findall (google env) n))
  = list_to_set fallback_path_keys.
Proof.
  rewrite !dom_dict_update, dom_competition_analysis_agent, dom_funding_research_agent,
    dom_enhanced_fallback_analysis.
  unfold fallback_path_keys, llm_keys. simpl. set_solver.
Qed.


(** X21: when no website was found and the language-model step falls
    back, the website and the four attributes only the website agent
    sets are still the empty string in the profile: the build writes no
    "Unknown" there. *)
Theorem website_attributes_stay_empty env n info profile key :
  Py.truthy (SearchData.website (web_search_agent (adapters env))) = false →
  call_groq_llm (reply env) = None →
  research_single_company re_findall set_order env n info = Some profile →
  key ∈ "website" :: website_keys → profile !! key = Some (JStr EmptyString).
Proof.
  intros Hsite Hnone H Hkey. rewrite (fallback_profile_eq _ _ _ Hnone) in H.
  injection H as <-.
  rewrite dict_update_lookup_other.
  2:{ rewrite dom_as_json, dom_fallback_writes. unfold fallback_path_keys, llm_keys.
      revert Hkey. unfold website_keys. simpl. set_solver. }
  unfold profile_after_website. cbv zeta. rewrite Hsite.
  by apply initial_profile_empty.
Qed.

Hypothesis set_order_permutes : ∀ l, set_order l ≡ₚ l.
Hypothesis re_findall_nonempty :
  ∀ pattern text m, m ∈ re_findall pattern text → m ≠ EmptyString.

(** X20: when the language-model step falls back, each of the fourteen
    attributes written by the heuristic, the funding agent and the
    competition agent is a non-empty string in the profile, provided
    that a set iterates over its elements and a match of a pattern is
    never empty. *)
Theorem fallback_profile_values_nonempty env n info profile key :
  call_groq_llm (reply env) = None →
  research_single_company re_findall set_order env n info = Some profile →
  key ∈ fallback_path_keys →
  ∃ v, profile !! key = Some (JStr v) ∧ v ≠ EmptyString.
Proof.
  intros Hnone H Hkey. rewrite (fallback_profile_eq _ _ _ Hnone) in H.
  injection H as <-.
  set (writes := dict_update (dict_update _ _) _).
  assert (Hin : key ∈ dom writes).
  { unfold writes. rewrite dom_fallback_writes. by apply elem_of_list_to_set. }
  apply elem_of_dom in Hin as [v Hv]. exists v. split.
  - by apply dict_update_lookup_new.
  - assert (Hall : all_nonempty writes).
    { unfold writes, dict_update. repeat apply all_nonempty_union.
      + by apply competition_analysis_agent_nonempty.
      + apply funding_research_agent_nonempty.
      + by apply enhanced_fallback_analysis_nonempty. }
    exact (Hall key v Hv).
Qed.

End fallback_profile.

(** ** The answer of the model in the profile *)

Section model_profile.

Variable re_findall : regex → string → list string.
Variable set_order : list string → list string.

(** X22: a member of the object the language model answered reaches
    the profile with the model's value, whatever the key and the value
    are, unless it is one of the four keys the funding and competition
    agents write afterwards. *)
Theorem model_answer_reaches_profile env n info members key v :
  call_groq_llm (reply env) = Some (JObj members) →
  dict_of_members members !! key = Some v →
  key ∉ agent_keys →
  ∃ profile,
    research_single_company re_findall set_order env n info = Some profile
    ∧ profile !! key = Some v.
Proof.
  intros Hcall Hv Hkey.
  exists (agents_update re_findall env n
            (dict_update (profile_after_website re_findall env n info)
               (dict_of_members members))).
  split.
  { rewrite research_single_company_eq. unfold llm_research_agent.
    by rewrite Hcall. }
  unfold agents_update, agent_keys in *.
  rewrite dict_update_lookup_other
    by (rewrite dom_as_json, dom_competition_analysis_agent; set_solver).
  rewrite dict_update_lookup_other
    by (rewrite dom_as_json, dom_funding_research_agent; set_solver).
  by rewrite dict_update_lookup, Hv.
Qed.

End model_profile.

(** ** The heuristic and the website agent *)

Lemma app_empty_r s : s +:+ EmptyString = s.
Proof.
  induction s as [|c s IH]; [done|].
  change (String c (s +:+ EmptyString) = String c s). by rewrite IH.
Qed.

Section heuristic_values.

Variable re_findall : regex → string → list string.
Variable set_order : list string → list string.

(** X23: the fallback heuristic never determines six of its eleven
    attributes, which are always "Unknown"; the founding team rating is
    always "3"; the stage is one of Unknown, Growth, Established,
    Startup; and the comment always starts with the fixed sentence
    followed by the company name. *)
Theorem fallback_leaves_six_attributes_unknown n sd :
  let fallback_data := enhanced_fallback_analysis set_order n sd in
  (∀ key, key ∈ undetected_keys → fallback_data !! key = Some "Unknown")
  ∧ fallback_data !! "founding_team_rating" = Some "3"
  ∧ (∃ stage, fallback_data !! "stage" = Some stage ∧ stage ∈ funding_stages)
  ∧ (∃ comment,
       fallback_data !! "comment"
       = Some ("Enhanced analysis using FREE APIs for " +:+ n +:+ comment)).
Proof.
  cbv zeta. split; [|split; [|split]].
  - intros key. unfold undetected_keys. rewrite !elem_of_cons, elem_of_nil.
    intros [->|[->|[->|[->|[->|[->|[]]]]]]]; reflexivity.
  - reflexivity.
  - exists (fallback_stage sd). split; [reflexivity|apply fallback_stage_values].
  - rewrite fallback_lookup_comment. unfold fallback_comment. cbv zeta.
    match goal with
    | |- context [match ?parts with [] => _ | _ :: _ => _ end] => destruct parts
    end.
    + exists EmptyString. by rewrite app_empty_r.
    + eexists. reflexivity.
Qed.

(** X24: the website agent echoes the address it was given, answers the
    business model with one of Unknown, SaaS, Platform, Services and
    the API integration with Unknown or Yes, cuts the product
    description to 200 characters, and leaves every attribute "Unknown"
    when the page could not be fetched. *)
Theorem website_agent_values fetched url :
  let website_data := website_analysis_agent re_findall fetched url in
  website_data !! "website" = Some url
  ∧ (∃ model, website_data !! "business_model" = Some model
              ∧ model ∈ ["Unknown"; "SaaS"; "Platform"; "Services"])
  ∧ (∃ api, website_data !! "api_integration" = Some api ∧ api ∈ ["Unknown"; "Yes"])
  ∧ (∃ product, website_data !! "product" = Some product
                ∧ (String.length product <= 200)%nat)
  ∧ (fetched = None →
     ∀ key, key ∈ website_keys → website_data !! key = Some "Unknown").
Proof.
  cbv zeta. unfold website_analysis_agent. cbv zeta. destruct fetched as [soup|].
  - set (page_text := Py.lower (get_text soup)).
    destruct (first_matches re_findall pricing_patterns page_text) as [matches|];
    destruct (meta_description soup) as [content|];
    repeat match goal with |- context [if ?b then _ else _] => destruct b end;
    (split; [reflexivity|]);
    (split; [eexists; split; [reflexivity|repeat constructor]|]);
    (split; [eexists; split; [reflexivity|repeat constructor]|]);
    (split; [eexists; split; [reflexivity|]|done]);
    first [apply take_length | simpl; lia].
  - split; [reflexivity|].
    split; [eexists; split; [reflexivity|repeat constructor]|].
    split; [eexists; split; [reflexivity|repeat constructor]|].
    split; [eexists; split; [reflexivity|simpl; lia]|].
    intros _ key. unfold website_keys. rewrite !elem_of_cons, elem_of_nil.
    intros [->|[->|[->|[->|[]]]]]; reflexivity.
Qed.

End heuristic_values.

(** X25: the answer of the capability check by sources: "Yes" when the
    company name has a term and one more source has one, or when the
    search text, the news and the repositories all have one; "Possible"
    when some source has a term; "No" when none has. *)
Theorem ai_capability_by_sources n sd :
  ai_capability (ai_indicators n sd)
  = if name_hit n && (search_hit sd || news_hit sd || repo_hit sd)
       || search_hit sd && news_hit sd && repo_hit sd
    then "Yes - multiple AI indicators found"
    else if name_hit n || search_hit sd || news_hit sd || repo_hit sd
    then "Possible - some AI indicators found"
    else "No - no clear AI indicators".
Proof.
  rewrite ai_indicators_weights.
  by destruct (name_hit n), (search_hit sd), (news_hit sd), (repo_hit sd).
Qed.

(** ** The batch *)

Lemma omap_length_le {A B} (f : A → option B) (l : list A) :
  (length (omap f l) <= length l)%nat.
Proof.
  induction l as [|x l IH]; [done|].
  change (omap f (x :: l))
    with (match f x with Some y => y :: omap f l | None => omap f l end).
  destruct (f x); simpl length; lia.
Qed.

Section batch_facts.

Variable re_findall : regex → string → list string.
Variable set_order : list string → list string.

Lemma research_loop_spec env_of i companies research_results :
  research_loop re_findall set_order env_of i companies research_results
  = research_results
    ++ omap (λ numbered,
               research_single_company re_findall set_order (env_of numbered.1)
                 numbered.2.1 numbered.2.2)
         (zip (seq i (length companies)) companies).
Proof.
  revert i research_results.
  induction companies as [|company rest IH]; intros i research_results; simpl.
  - by rewrite app_nil_r.
  - destruct (research_single_company _ _ _ _ _) as [company_profile|]; rewrite IH.
    + by rewrite <- app_assoc.
    + done.
Qed.

(** X26: in the batch a build that raises is skipped and the other
    companies are still researched: the profile of every company whose
    build completes is in the result, the result has at most one
    profile per company, and each of its profiles is the build of one
    of the companies. *)
Theorem failed_build_does_not_stop_the_batch env_of companies i company profile :
  companies !! i = Some company →
  research_single_company re_findall set_order (env_of i) company.1 company.2
  = Some profile →
  ∃ results,
    research_all_companies re_findall set_order env_of (Some companies) = Some results
    ∧ profile ∈ results
    ∧ (length results <= length companies)%nat
    ∧ ∀ p, p ∈ results →
        ∃ j c, companies !! j = Some c
               ∧ research_single_company re_findall set_order (env_of j) c.1 c.2
                 = Some p.
Proof.
  intros Hi Hbuild. unfold research_all_companies. cbv zeta. simpl default.
  destruct companies as [|first rest] eqn:E; [done|]. rewrite <- E in *.
  eexists. split; [reflexivity|]. rewrite research_loop_spec. simpl app.
  set (build := λ numbered : nat * (string * json),
         research_single_company re_findall set_order (env_of numbered.1)
           numbered.2.1 numbered.2.2).
  assert (Hzip : ∀ j c, (j, c) ∈ zip (seq 0 (length companies)) companies
                        ↔ companies !! j = Some c).
  { intros j c. rewrite elem_of_lookup_zip_with. split.
    - intros (k & j' & c' & [= <- <-] & Hseq & Hc).
      apply lookup_seq in Hseq as [-> _]. done.
    - intros Hc. exists j, j, c. split; [done|]. split; [|done].
      apply lookup_seq. split; [done|]. by apply lookup_lt_Some in Hc. }
  split; [|split].
  - apply list_elem_of_omap. exists (i, company). split; [by apply Hzip|done].
  - etrans; [apply omap_length_le|].
    rewrite length_zip_with, length_seq. lia.
  - intros p Hp. apply list_elem_of_omap in Hp as ([j c] & Hin & Hp).
    exists j, c. split; [by apply Hzip|done].
Qed.

End batch_facts.

(** ** The source filters of part 1 *)

(** A term that contains another term of the list decides nothing. *)
Lemma any_in_subsumed terms terms' text :
  forallb (λ t, existsb (λ t', Py.isin t' t) terms') terms = true →
  forallb (λ t', existsb (String.eqb t') terms) terms' = true →
  Py.any_in terms text = Py.any_in terms' text.
Proof.
  rewrite !forallb_forall. intros Hsub Hincl. apply eq_true_iff_eq. unfold Py.any_in.
  rewrite !existsb_exists. split.
  - intros (t & Ht & Hin).
    destruct (proj1 (existsb_exists _ _) (Hsub t Ht)) as (t' & Ht' & Hsubstr).
    exists t'. split; [done|]. by apply (isin_trans t' t text).
  - intros (t' & Ht' & Hin).
    destruct (proj1 (existsb_exists _ _) (Hincl t' Ht')) as (t & Ht & Heq).
    apply String.eqb_eq in Heq as ->. by exists t.
Qed.

Lemma any_in_extend terms text x y :
  Py.any_in terms text = true → Py.any_in terms (x +:+ text +:+ y) = true.
Proof.
  unfold Py.any_in. rewrite !existsb_exists. intros (t & Ht & Hin).
  exists t. split; [done|]. by apply isin_extend_l, isin_extend_r.
Qed.

Lemma app_assoc_str a b c : a +:+ b +:+ c = (a +:+ b) +:+ c.
Proof.
  induction a as [|x a IH]; [done|].
  change (String x (a +:+ b +:+ c) = String x ((a +:+ b) +:+ c)). by rewrite IH.
Qed.

(** X27: five of the fifteen keywords of the repository filter decide
    nothing, as each contains another keyword: the filter is the test
    for the ten others together with more than five stars; and an
    accepted repository stays accepted with a longer description and at
    least as many stars. *)
Theorem repository_filter_core_keywords repo :
  let repo_text :=
    Py.lower (Repository.name repo +:+ " "
              +:+ format_description (Repository.description repo)) in
  is_legal_tech_repo repo
  = Py.any_in ["legal"; "law"; "attorney"; "contract"; "litigation"; "compliance";
               "court"; "jurisdiction"; "statute"; "regulation"] repo_text
    && (5 <? Repository.stargazers_count repo)
  ∧ ∀ text more stars,
      Repository.description repo = Val text →
      Repository.stargazers_count repo <= stars →
      is_legal_tech_repo repo = true →
      is_legal_tech_repo (Repository.mk (Repository.name repo) (Val (text +:+ more)) stars)
      = true.
Proof.
  cbv zeta. unfold is_legal_tech_repo. cbv zeta. split.
  - f_equal. apply any_in_subsumed; reflexivity.
  - intros text more stars Hd Hstars. rewrite Hd.
    cbn [Repository.name Repository.description Repository.stargazers_count
         format_description].
    rewrite !andb_true_iff. intros [Hany Hfive]. split.
    + replace (Repository.name repo +:+ " " +:+ text +:+ more)
        with ((Repository.name repo +:+ " " +:+ text) +:+ more).
      * rewrite lower_app. by apply (any_in_extend _ _ EmptyString).
      * by rewrite !app_assoc_str.
    + apply Z.ltb_lt in Hfive. apply Z.ltb_lt. lia.
Qed.

(** X28: the registry filter accepts a name exactly when its lowered
    form has one of legal, law, attorney, contract and one of ai, tech,
    software, digital, automation, and the name has more than five
    characters; an accepted name stays accepted when text is put before
    or after it. *)
Theorem registry_filter_by_name name :
  is_legal_tech_company_opencorp name
  = Py.any_in ["legal"; "law"; "attorney"; "contract"] (Py.lower name)
    && Py.any_in ["ai"; "tech"; "software"; "digital"; "automation"] (Py.lower name)
    && (5 <? String.length name)%nat
  ∧ ∀ before after,
      is_legal_tech_company_opencorp name = true →
      is_legal_tech_company_opencorp (before +:+ name +:+ after) = true.
Proof.
  split.
  - unfold is_legal_tech_company_opencorp. cbv zeta.
    unfold Py.lower at 3. rewrite str_map_length.
    f_equal. f_equal; apply any_in_subsumed; reflexivity.
  - intros before after. unfold is_legal_tech_company_opencorp. cbv zeta.
    rewrite !andb_true_iff, !lower_app. intros [[Hl Ht] Hlen].
    split; [split; by apply any_in_extend|].
    apply Nat.ltb_lt in Hlen. apply Nat.ltb_lt.
    rewrite !str_length_app. lia.
Qed.

(** ** Instances *)


Lemma website_attributes_stay_empty_witness :
  Py.truthy (SearchData.website (web_search_agent (adapters (offline (λ _, Timeout)))))
  = false
  ∧ ∃ profile,
      research_single_company no_matches insertion_order
        (offline (λ _, Timeout)) "Acme" JNull = Some profile
      ∧ profile !! "pricing" = Some (JStr EmptyString).
Proof.
  split; [reflexivity|].
  destruct offline_fallback_build_completes as [profile E].
  exists profile. split; [exact E|].
  apply (website_attributes_stay_empty no_matches insertion_order
           (offline (λ _, Timeout)) "Acme" JNull profile "pricing"
           eq_refl eq_refl E).
  unfold website_keys. repeat constructor.
Defined.

Lemma fallback_profile_values_nonempty_witness :
  ∃ profile,
    research_single_company no_matches insertion_order
      (offline (λ _, Timeout)) "Acme" JNull = Some profile
    ∧ ∃ v, profile !! "coverage" = Some (JStr v) ∧ v ≠ EmptyString.
Proof.
  destruct offline_fallback_build_completes as [profile E].
  exists profile. split; [exact E|].
  apply (fallback_profile_values_nonempty no_matches insertion_order
           (λ l, reflexivity l)
           (λ pattern text m Hm, False_ind _ (proj1 (elem_of_nil m) Hm))
           (offline (λ _, Timeout)) "Acme" JNull profile "coverage" eq_refl E).
  unfold fallback_path_keys, llm_keys. simpl. repeat constructor.
Defined.

Lemma model_answer_reaches_profile_witness :
  call_groq_llm (reply (offline (λ _, Answered (Some off_contract_answer))))
  = Some off_contract_answer
  ∧ ∃ profile,
      research_single_company no_matches insertion_order
        (offline (λ _, Answered (Some off_contract_answer))) "Acme" JNull
      = Some profile
      ∧ profile !! "verdict" = Some (JStr "competitor").
Proof.
  split; [reflexivity|].
  apply (model_answer_reaches_profile no_matches insertion_order
           (offline (λ _, Answered (Some off_contract_answer))) "Acme" JNull
           [("verdict", JStr "competitor"); ("coverage", JNull)] "verdict"
           (JStr "competitor") eq_refl eq_refl).
  unfold agent_keys. rewrite !elem_of_cons, elem_of_nil.
  intros [H|[H|[H|[H|H]]]]; [discriminate H..|exact H].
Defined.

Lemma fallback_leaves_six_attributes_unknown_witness :
  "free_tier" ∈ undetected_keys
  ∧ enhanced_fallback_analysis insertion_order "Acme" series_b_evidence !! "free_tier"
    = Some "Unknown".
Proof.
  assert (H : "free_tier" ∈ undetected_keys) by (unfold undetected_keys; repeat constructor).
  split; [exact H|].
  exact (proj1 (fallback_leaves_six_attributes_unknown insertion_order "Acme"
                  series_b_evidence) "free_tier" H).
Defined.

Lemma website_agent_values_witness :
  (None : option page) = None
  ∧ website_analysis_agent no_matches None "https://acme.example" !! "pricing"
    = Some "Unknown".
Proof.
  split; [reflexivity|].
  apply (proj2 (proj2 (proj2 (proj2
           (website_agent_values no_matches None "https://acme.example")))) eq_refl).
  unfold website_keys. repeat constructor.
Defined.

Lemma failed_build_does_not_stop_the_batch_witness :
  ∃ profile results,
    research_all_companies no_matches insertion_order
      (λ i, match i with
            | O => offline (λ _, Answered (Some (JNum "1")))
            | S _ => offline (λ _, Timeout)
            end)
      (Some [("Broken", JNull); ("Acme", JNull)]) = Some results
    ∧ profile ∈ results.
Proof.
  destruct offline_fallback_build_completes as [profile E].
  exists profile.
  destruct (failed_build_does_not_stop_the_batch no_matches insertion_order
              (λ i, match i with
                    | O => offline (λ _, Answered (Some (JNum "1")))
                    | S _ => offline (λ _, Timeout)
                    end)
              [("Broken", JNull); ("Acme", JNull)] 1 ("Acme", JNull) profile
              eq_refl E)
    as (results & Hall & Hin & _).
  exists results. split; [exact Hall|exact Hin].
Defined.

Lemma repository_filter_core_keywords_witness :
  is_legal_tech_repo (Repository.mk "lexkit" (Val "Contract review") 12) = true
  ∧ is_legal_tech_repo
      (Repository.mk "lexkit" (Val ("Contract review" +:+ " in Python")) 40) = true.
Proof.
  split; [reflexivity|].
  apply (proj2 (repository_filter_core_keywords
                  (Repository.mk "lexkit" (Val "Contract review") 12))
           "Contract review" " in Python" 40); [reflexivity|simpl; lia|reflexivity].
Defined.

Lemma registry_filter_by_name_witness :
  is_legal_tech_company_opencorp "LegalTech" = true
  ∧ is_legal_tech_company_opencorp ("Acme " +:+ "LegalTech" +:+ " GmbH") = true.
Proof.
  split; [reflexivity|].
  apply (proj2 (registry_filter_by_name "LegalTech") "Acme " " GmbH"). reflexivity.
Defined.
